(** * B2B shipping estimator: pricing and selection engine

    A shallow embedding of the Python sources under [src/]: the
    strategies ([strategies/base.py], [mini_van.py], [truck.py],
    [aeroplane.py], [factory.py]), the in-memory repositories
    ([repositories/base.py]), the distance calculator
    ([services/distance_calculator.py]), the warehouse service
    ([services/warehouse_service.py]) and the shipping charge service
    ([services/shipping_charge_service.py]).

    Python's [float] is IEEE-754 binary64.  Every finite binary64 value
    is an integer multiple of the smallest subnormal [2^-1074], so a
    finite float is kept as a sign and a magnitude counted in that
    unit; each arithmetic operation is the correctly rounded
    (round-to-nearest, ties-to-even) image of the exact result.  The
    model is executable and is compared below with the kernel's
    hardware floats on the inputs the development evaluates. *)

From Stdlib Require Import ZArith NArith Lia List String Ascii Bool Sorted Permutation.
From Stdlib Require DecimalString.
From Stdlib Require Floats.
Import ListNotations.
Local Open Scope Z_scope.

(* ================================================================= *)
(** ** IEEE-754 binary64, as Python's [float] *)

Module F64.

(** [scale] units make 1.0; [top] units make [2^1024], the first
    magnitude that no longer fits and rounds to infinity. *)
Definition scale : Z := 2 ^ 1074.
Definition top : Z := 2 ^ 2098.

(** A float: not-a-number, a signed infinity, or a signed magnitude
    [k] standing for [(-1)^neg * k * 2^-1074].  [Fin true 0] is [-0.0]. *)
Inductive f64 : Type :=
| NaN
| Inf (neg : bool)
| Fin (neg : bool) (k : N).

(** The magnitudes of floats in the everyday range end in about a
    thousand zero bits, and so do the denominators they are divided
    by.  A ratio is first reduced by the power of two its numerator
    and denominator share, which changes neither its quotient nor the
    side of one half its remainder lies on. *)
Fixpoint reduce2 (a b : positive) : positive * positive :=
  match a, b with
  | xO a', xO b' => reduce2 a' b'
  | _, _ => (a, b)
  end.

Definition reduced (p q : Z) : Z * Z :=
  match p, q with
  | Zpos a, Zpos b => let '(a', b') := reduce2 a b in (Zpos a', Zpos b')
  | _, _ => (p, q)
  end.

(** Floor of [p / q]. *)
Definition qfloor (p q : Z) : Z :=
  let '(p', q') := reduced p q in p' / q'.

(** Round-half-even of the rational [p / q] ([q > 0]) to an integer. *)
Definition rhe_raw (p q : Z) : Z :=
  let a := p / q in
  let r := p mod q in
  match 2 * r ?= q with
  | Lt => a
  | Gt => a + 1
  | Eq => if Z.even a then a else a + 1
  end.

Definition rhe (p q : Z) : Z :=
  let '(p', q') := reduced p q in rhe_raw p' q'.

(** Number of low bits a magnitude [t] (in units) must drop so that 53
    significant bits remain; 0 in the subnormal range and the first
    normal binade. *)
Definition shift_of (t : Z) : Z := Z.max 0 (Z.log2 t - 52).

(** Nearest binary64 magnitude (in units) to the non-negative rational
    [p / q] units, ties to even. *)
Definition rnd_mag (p q : Z) : Z :=
  let sh := shift_of (qfloor p q) in
  2 ^ sh * rhe p (q * 2 ^ sh).

(** Attach the sign; a rounded magnitude of [2^1024] or more overflows. *)
Definition pack (s : bool) (m : Z) : f64 :=
  if m <? top then Fin s (Z.to_N m) else Inf s.

(** The float nearest to [(-1)^s * n / d], as a decimal literal
    [n/d] is read by Python's parser. *)
Definition of_ratio (s : bool) (n d : Z) : f64 := pack s (rnd_mag (n * scale) d).

Definition of_Z (z : Z) : f64 := of_ratio (z <? 0) (Z.abs z) 1.

(** Signed value of a finite float, in units. *)
Definition sval (s : bool) (k : N) : Z := if s then - Z.of_N k else Z.of_N k.

Definition is_nan (x : f64) : bool := match x with NaN => true | _ => false end.
Definition is_inf (x : f64) : bool := match x with Inf _ => true | _ => false end.
Definition is_finite (x : f64) : bool := match x with Fin _ _ => true | _ => false end.

Definition fopp (x : f64) : f64 :=
  match x with
  | NaN => NaN
  | Inf s => Inf (negb s)
  | Fin s k => Fin (negb s) k
  end.

Definition fabs (x : f64) : f64 :=
  match x with
  | NaN => NaN
  | Inf _ => Inf false
  | Fin _ k => Fin false k
  end.

(** [x + y]: the exact sum of two finite floats is an integer number of
    units; an exact zero sum is [+0.0] unless both operands are
    negative zeros. *)
Definition fadd (x y : f64) : f64 :=
  match x, y with
  | NaN, _ | _, NaN => NaN
  | Inf s1, Inf s2 => if Bool.eqb s1 s2 then Inf s1 else NaN
  | Inf s, Fin _ _ | Fin _ _, Inf s => Inf s
  | Fin s1 k1, Fin s2 k2 =>
      let z := sval s1 k1 + sval s2 k2 in
      if z =? 0 then Fin (s1 && s2) 0
      else pack (z <? 0) (rnd_mag (Z.abs z) 1)
  end.

Definition fsub (x y : f64) : f64 := fadd x (fopp y).

Definition fmul (x y : f64) : f64 :=
  match x, y with
  | NaN, _ | _, NaN => NaN
  | Inf s1, Inf s2 => Inf (xorb s1 s2)
  | Inf s1, Fin s2 k | Fin s1 k, Inf s2 =>
      if (k =? 0)%N then NaN else Inf (xorb s1 s2)
  | Fin s1 k1, Fin s2 k2 =>
      pack (xorb s1 s2) (rnd_mag (Z.of_N k1 * Z.of_N k2) scale)
  end.

Definition fdiv (x y : f64) : f64 :=
  match x, y with
  | NaN, _ | _, NaN => NaN
  | Inf _, Inf _ => NaN
  | Inf s1, Fin s2 _ => Inf (xorb s1 s2)
  | Fin s1 _, Inf s2 => Fin (xorb s1 s2) 0
  | Fin s1 k1, Fin s2 k2 =>
      if (k2 =? 0)%N then (if (k1 =? 0)%N then NaN else Inf (xorb s1 s2))
      else pack (xorb s1 s2) (rnd_mag (Z.of_N k1 * scale) (Z.of_N k2))
  end.

(** Number of trailing zero bits. *)
Fixpoint ctz (a : positive) : Z :=
  match a with
  | xO a' => 1 + ctz a'
  | _ => 0
  end.

(** Correctly rounded square root of a magnitude: [sqrt (k / scale)]
    is [sqrt (k * scale)] units.  Pairs of trailing zero bits of
    [n = k * scale] are set aside ([4^j] of them, leaving at least
    110 bits, so that the integer square root [t] has more than 53);
    the result is one of the two 53-bit grid points around [t], chosen
    by comparing [n] with the square of their midpoint. *)
Definition sqrt_mag (k : Z) : Z :=
  let n := k * scale in
  let j := Z.max 0 (Z.min (match n with Zpos a => ctz a | _ => 0 end / 2)
                          ((Z.log2 n - 110) / 2)) in
  let n' := Z.shiftr n (2 * j) in
  let t := Z.sqrt n' in
  let sh := shift_of t in
  let a := t / 2 ^ sh in
  let mid2 := (2 * a + 1) * 2 ^ sh in    (* twice the midpoint *)
  let r :=
    match 4 * n' ?= mid2 * mid2 with
    | Lt => a
    | Gt => a + 1
    | Eq => if Z.even a then a else a + 1
    end in
  Z.shiftl r (sh + j).

Definition fsqrt (x : f64) : f64 :=
  match x with
  | NaN => NaN
  | Inf s => if s then NaN else Inf false
  | Fin s k =>
      if (k =? 0)%N then Fin s 0
      else if s then NaN
      else pack false (sqrt_mag (Z.of_N k))
  end.

(** Comparisons; every comparison with [NaN] is false, and the two
    zeros are equal. *)
Definition fltb (x y : f64) : bool :=
  match x, y with
  | NaN, _ | _, NaN => false
  | Inf s1, Inf s2 => s1 && negb s2
  | Inf s1, Fin _ _ => s1
  | Fin _ _, Inf s2 => negb s2
  | Fin s1 k1, Fin s2 k2 => sval s1 k1 <? sval s2 k2
  end.

Definition fleb (x y : f64) : bool :=
  match x, y with
  | NaN, _ | _, NaN => false
  | Inf s1, Inf s2 => s1 || negb s2
  | Inf s1, Fin _ _ => s1
  | Fin _ _, Inf s2 => negb s2
  | Fin s1 k1, Fin s2 k2 => sval s1 k1 <=? sval s2 k2
  end.

Definition feqb (x y : f64) : bool :=
  match x, y with
  | NaN, _ | _, NaN => false
  | Inf s1, Inf s2 => Bool.eqb s1 s2
  | Inf _, Fin _ _ | Fin _ _, Inf _ => false
  | Fin s1 k1, Fin s2 k2 => sval s1 k1 =? sval s2 k2
  end.

(** The magnitudes binary64 can hold: below [2^1024], with at most 53
    significant bits. *)
Definition representable (k : Z) : bool :=
  (0 <=? k) && (k <? top) && (k mod 2 ^ shift_of k =? 0).

Definition wf (x : f64) : bool :=
  match x with
  | Fin _ k => representable (Z.of_N k)
  | _ => true
  end.

(** *** The kernel's hardware floats, for comparison *)

Definition to_prim (x : f64) : PrimFloat.float :=
  match x with
  | NaN => PrimFloat.nan
  | Inf s => if s then PrimFloat.neg_infinity else PrimFloat.infinity
  | Fin s k =>
      match Z.of_N k with
      | Zpos _ =>
          let sh := shift_of (Z.of_N k) in
          FloatOps.SF2Prim
            (SpecFloat.S754_finite s (Z.to_pos (Z.of_N k / 2 ^ sh)) (sh - 1074))
      | _ => if s then PrimFloat.neg_zero else PrimFloat.zero
      end
  end.

Definition of_prim (x : PrimFloat.float) : f64 :=
  match FloatOps.Prim2SF x with
  | SpecFloat.S754_nan => NaN
  | SpecFloat.S754_infinity s => Inf s
  | SpecFloat.S754_zero s => Fin s 0
  | SpecFloat.S754_finite s m e => Fin s (Z.to_N (Zpos m * 2 ^ (e + 1074)))
  end.

End F64.

(* ================================================================= *)
(** ** The Python runtime the sources rely on *)

Module Py.
Import F64.

(** Exceptions: the two application errors of [core/exceptions.py]
    and the built-in ones the code or the runtime raises. *)
Inductive exn : Type :=
| NotFoundError (message : string)
| ValidationError (message : string)
| ValueError (message : string)
| OverflowError (message : string)
| IndexError (message : string)
| AttributeError (message : string).

(** [ShippingError.status_code], fixed by each subclass' constructor. *)
Definition status_code (e : exn) : option Z :=
  match e with
  | NotFoundError _ => Some 404
  | ValidationError _ => Some 400
  | _ => None
  end.

Inductive result (A : Type) : Type :=
| Ok (a : A)
| Raise (e : exn).
Arguments Ok {A} a.
Arguments Raise {A} e.

Definition bind {A B : Type} (m : result A) (f : A -> result B) : result B :=
  match m with
  | Ok a => f a
  | Raise e => Raise e
  end.

(** [str(i)] of an [int], as an f-string formats it. *)
Definition str_int (i : Z) : string := DecimalString.NilZero.string_of_int (Z.to_int i).

(** [str.lower()].  Strings are kept as byte strings; only the ASCII
    capitals change.  No character outside ASCII lowers to one of the
    letters of the two delivery speeds, so the comparison made on the
    lowered string is the same. *)
Definition lower_ascii (c : ascii) : ascii :=
  let n := nat_of_ascii c in
  if (65 <=? n)%nat && (n <=? 90)%nat then ascii_of_nat (n + 32) else c.

Fixpoint lower (s : string) : string :=
  match s with
  | EmptyString => EmptyString
  | String c s' => String (lower_ascii c) (lower s')
  end.

(** [round(x, 2)]: CPython prints [x] correctly rounded to two
    decimals (ties to even on the exact binary value) and reads the
    decimal back to the nearest float; infinities and nan round to
    themselves. *)
Definition round2 (x : f64) : f64 :=
  match x with
  | Fin s k => pack s (rnd_mag (rhe (100 * Z.of_N k) scale * scale) 100)
  | _ => x
  end.

(** The C library behind [math] and [**], and [repr] of a float; they
    are not part of the repository. *)
Record Platform : Type := {
  libm_sin : f64 -> f64;
  libm_cos : f64 -> f64;
  libm_atan2 : f64 -> f64 -> f64;
  libm_pow : f64 -> f64 -> f64;
  repr_float : f64 -> string
}.

(** [math.pi] is 0x1.921fb54442d18p+1; [math.radians] multiplies by
    the constant [pi / 180.0]. *)
Definition math_pi : f64 := of_ratio false 884279719003555 (2 ^ 48).
Definition degToRad : f64 := fdiv math_pi (of_Z 180).
Definition math_radians (x : f64) : f64 := fmul x degToRad.

(** [math_1] of CPython's [mathmodule.c], for a function that cannot
    overflow: a nan from a non-nan argument, or an infinity from a
    finite one, is a [ValueError]. *)
Definition math_1 (func : f64 -> f64) (x : f64) : result f64 :=
  let r := func x in
  if is_nan r && negb (is_nan x) then Raise (ValueError "math domain error")
  else if is_inf r && is_finite x then Raise (ValueError "math domain error")
  else Ok r.

(** [m_atan2] of [mathmodule.c]: the special values are settled before
    the C library is called. *)
Definition sign_bit (x : f64) : bool :=
  match x with
  | NaN => false
  | Inf s => s
  | Fin s _ => s
  end.

Definition copysign (m : f64) (y : f64) : f64 :=
  if sign_bit y then fopp (fabs m) else fabs m.

Definition is_zero (x : f64) : bool :=
  match x with
  | Fin _ k => (k =? 0)%N
  | _ => false
  end.

Definition m_atan2 (P : Platform) (y x : f64) : f64 :=
  if is_nan x || is_nan y then NaN
  else if is_inf y then
    if is_inf x then
      if sign_bit x then copysign (fmul (of_ratio false 3 4) math_pi) y
      else copysign (fmul (of_ratio false 1 4) math_pi) y
    else copysign (fmul (of_ratio false 1 2) math_pi) y
  else if is_inf x || is_zero y then
    if sign_bit x then copysign math_pi y else copysign (Fin false 0) y
  else libm_atan2 P y x.

(** [math_2] of [mathmodule.c]. *)
Definition math_2 (func : f64 -> f64 -> f64) (x y : f64) : result f64 :=
  let r := func x y in
  if is_nan r && negb (is_nan x) && negb (is_nan y)
  then Raise (ValueError "math domain error")
  else if is_inf r && is_finite x && is_finite y
  then Raise (OverflowError "math range error")
  else Ok r.

Definition math_sin (P : Platform) (x : f64) : result f64 := math_1 (libm_sin P) x.
Definition math_cos (P : Platform) (x : f64) : result f64 := math_1 (libm_cos P) x.
Definition math_sqrt (x : f64) : result f64 := math_1 fsqrt x.
Definition math_atan2 (P : Platform) (y x : f64) : result f64 := math_2 (m_atan2 P) y x.

(** [x ** 2]: [float_pow] of [floatobject.c] at the exponent 2.  Nan,
    infinities and zeros are answered directly, a negative base is
    replaced by its absolute value (the exponent is even), 1 gives 1,
    and the C library's [pow] is called on what remains; an infinite
    result is an [OverflowError]. *)
Definition float_pow_2 (P : Platform) (x : f64) : result f64 :=
  match x with
  | NaN => Ok NaN
  | Inf _ => Ok (Inf false)
  | Fin _ k =>
      if (k =? 0)%N then Ok (Fin false 0)
      else if (Z.of_N k =? scale) then Ok (of_Z 1)
      else
        let ix := libm_pow P (Fin false k) (of_Z 2) in
        if is_inf ix then Raise (OverflowError "(34, 'Numerical result out of range')")
        else Ok ix
  end.

End Py.

Declare Scope py_scope.
Delimit Scope py_scope with py.
Notation "x <- m ;; f" := (Py.bind m (fun x => f))
  (at level 61, m at next level, right associativity) : py_scope.
Local Open Scope py_scope.

Import F64 Py.

(* ================================================================= *)
(** ** Entities ([entities/]) *)

(** [Location]: a frozen dataclass whose [__post_init__] rejects
    coordinates outside [-90, 90] x [-180, 180]. *)
Record Location : Type := { lat : f64; lng : f64 }.

Definition valid_location (l : Location) : bool :=
  fleb (of_Z (-90)) (lat l) && fleb (lat l) (of_Z 90)
  && fleb (of_Z (-180)) (lng l) && fleb (lng l) (of_Z 180).

Definition Location_init (P : Platform) (la lo : f64) : result Location :=
  if negb (fleb (of_Z (-90)) la && fleb la (of_Z 90)) then
    Raise (ValueError ("Latitude must be between -90 and 90, got " ++ repr_float P la))
  else if negb (fleb (of_Z (-180)) lo && fleb lo (of_Z 180)) then
    Raise (ValueError ("Longitude must be between -180 and 180, got " ++ repr_float P lo))
  else Ok {| lat := la; lng := lo |}.

Record Warehouse : Type := {
  warehouse_id : Z;
  w_location : Location;
  w_name : string
}.

Record Seller : Type := {
  seller_id : Z;
  s_name : string;
  s_location : Location
}.

Record Customer : Type := {
  customer_id : Z;
  c_name : string;
  c_phone : string;
  c_location : Location
}.

Record Dimensions : Type := { dim_length : f64; dim_width : f64; dim_height : f64 }.

(** [Product.__post_init__] rejects a negative price and a weight that
    is not strictly positive. *)
Record Product : Type := {
  product_id : Z;
  p_name : string;
  price : f64;
  weight_kg : f64;
  dimensions : option Dimensions
}.

Definition valid_product (p : Product) : bool :=
  negb (fltb (price p) (of_Z 0)) && negb (fleb (weight_kg p) (of_Z 0)).

Definition Product_init (P : Platform) (i : Z) (n : string) (pr w : f64)
  (d : option Dimensions) : result Product :=
  if fltb pr (of_Z 0) then
    Raise (ValueError ("Price cannot be negative, got " ++ repr_float P pr))
  else if fleb w (of_Z 0) then
    Raise (ValueError ("Weight must be positive, got " ++ repr_float P w))
  else Ok {| product_id := i; p_name := n; price := pr; weight_kg := w; dimensions := d |}.

(* ================================================================= *)
(** ** Repositories ([repositories/base.py]) *)

(** [_get_id], the abstract method each repository implements. *)
Class HasId (T : Type) : Type := _get_id : T -> Z.

#[export] Instance Warehouse_id : HasId Warehouse := warehouse_id.
#[export] Instance Seller_id : HasId Seller := seller_id.
#[export] Instance Customer_id : HasId Customer := customer_id.
#[export] Instance Product_id : HasId Product := product_id.

(** [_store]: a [dict] from id to entity.  A Python dict iterates in
    insertion order, and assigning to a key that is present keeps its
    place; the store is the list of its items in that order. *)
Definition store (T : Type) : Type := list (Z * T).

Fixpoint dict_get {T : Type} (st : store T) (k : Z) : option T :=
  match st with
  | [] => None
  | (k', v) :: st' => if k' =? k then Some v else dict_get st' k
  end.

Fixpoint dict_set {T : Type} (st : store T) (k : Z) (v : T) : store T :=
  match st with
  | [] => [(k, v)]
  | (k', v') :: st' =>
      if k' =? k then (k, v) :: st' else (k', v') :: dict_set st' k v
  end.

Fixpoint dict_del {T : Type} (st : store T) (k : Z) : store T :=
  match st with
  | [] => []
  | (k', v') :: st' => if k' =? k then st' else (k', v') :: dict_del st' k
  end.

Definition repo_empty {T : Type} : store T := [].

Definition add {T : Type} `{HasId T} (st : store T) (entity : T) : store T :=
  dict_set st (_get_id entity) entity.

Definition get_by_id {T : Type} (st : store T) (entity_id : Z) : option T :=
  dict_get st entity_id.

Definition get_all {T : Type} (st : store T) : list T := map snd st.

Definition exists_ {T : Type} (st : store T) (entity_id : Z) : bool :=
  match dict_get st entity_id with Some _ => true | None => false end.

Definition update {T : Type} `{HasId T} (st : store T) (entity : T) : store T * option T :=
  if exists_ st (_get_id entity)
  then (dict_set st (_get_id entity) entity, Some entity)
  else (st, None).

Definition delete {T : Type} (st : store T) (entity_id : Z) : store T * bool :=
  if exists_ st entity_id then (dict_del st entity_id, true) else (st, false).

Definition count {T : Type} (st : store T) : nat := List.length st.

Definition clear {T : Type} (st : store T) : store T := [].

(** [CustomerRepository.find_by_phone]: the first customer, in the
    store's order, with that phone number. *)
Definition find_by_phone (st : store Customer) (phone : string) : option Customer :=
  find (fun c => String.eqb (c_phone c) phone) (map snd st).

(** [ProductRepository.find_by_price_range] and [find_by_max_weight]. *)
Definition find_by_price_range (st : store Product) (min_price max_price : f64)
  : list Product :=
  filter (fun p => fleb min_price (price p) && fleb (price p) max_price) (map snd st).

Definition find_by_max_weight (st : store Product) (max_weight_kg : f64) : list Product :=
  filter (fun p => fleb (weight_kg p) max_weight_kg) (map snd st).

(** A store filled through [add]: every entity sits under its own id,
    and no id occurs twice. *)
Definition keyed {T : Type} `{HasId T} (st : store T) : Prop :=
  Forall (fun kv => _get_id (snd kv) = fst kv) st /\ NoDup (map fst st).

(* ================================================================= *)
(** ** Strategies ([strategies/]) *)

(** A strategy is its four properties; [is_applicable] and
    [calculate_cost] are the base class' methods.  The three built-in
    strategies return the ints 0, 100 and 500 for their bounds, which
    compare with a float as the floats of the same value do. *)
Record ShippingStrategy : Type := {
  min_distance : f64;
  max_distance : f64;
  rate_per_km_per_kg : f64;
  mode_name : string
}.

Record ShippingCostResult : Type := {
  cr_transport_cost : f64;
  cr_distance_km : f64;
  cr_weight_kg : f64;
  cr_transport_mode : string;
  cr_rate_per_km_per_kg : f64
}.

Definition is_applicable (s : ShippingStrategy) (distance_km : f64) : bool :=
  fleb (min_distance s) distance_km && fltb distance_km (max_distance s).

Definition calculate_cost (s : ShippingStrategy) (distance_km weight : f64)
  : ShippingCostResult :=
  let transport_cost := fmul (fmul distance_km (rate_per_km_per_kg s)) weight in
  {| cr_transport_cost := round2 transport_cost;
     cr_distance_km := distance_km;
     cr_weight_kg := weight;
     cr_transport_mode := mode_name s;
     cr_rate_per_km_per_kg := rate_per_km_per_kg s |}.

Definition MiniVanStrategy : ShippingStrategy :=
  {| min_distance := of_Z 0; max_distance := of_Z 100;
     rate_per_km_per_kg := of_Z 3; mode_name := "Mini Van" |}.

Definition TruckStrategy : ShippingStrategy :=
  {| min_distance := of_Z 100; max_distance := of_Z 500;
     rate_per_km_per_kg := of_Z 2; mode_name := "Truck" |}.

Definition AeroplaneStrategy : ShippingStrategy :=
  {| min_distance := of_Z 500; max_distance := Inf false;
     rate_per_km_per_kg := of_Z 1; mode_name := "Aeroplane" |}.

(** *** The factory ([strategies/factory.py]) *)

Record ShippingStrategyFactory : Type := { _strategies : list ShippingStrategy }.

Definition factory_init : ShippingStrategyFactory :=
  {| _strategies := [MiniVanStrategy; TruckStrategy; AeroplaneStrategy] |}.

(** [self._strategies[-1]]. *)
Definition last_item {A : Type} (l : list A) : result A :=
  match rev l with
  | [] => Raise (IndexError "list index out of range")
  | x :: _ => Ok x
  end.

Definition get_strategy (P : Platform) (f : ShippingStrategyFactory) (distance_km : f64)
  : result ShippingStrategy :=
  if fltb distance_km (of_Z 0) then
    Raise (ValueError ("Distance cannot be negative: " ++ repr_float P distance_km))
  else
    match find (fun s => is_applicable s distance_km) (_strategies f) with
    | Some s => Ok s
    | None => last_item (_strategies f)
    end.

Definition get_all_strategies (f : ShippingStrategyFactory) : list ShippingStrategy :=
  _strategies f.

(** [list.sort(key=...)] compares keys with [<] only.  It starts by
    looking for a run: a list in which no element is smaller than the
    one before it is a single ascending run and is left as it is, and
    that is so also when a key is nan, which is smaller than nothing.
    Any other list is put in the order of a stable sort, each element
    before the first one whose key is strictly greater.  (With a nan
    key in a list that is not one run, the order CPython leaves depends
    on how its version cuts and merges the runs; nothing below is
    stated about that case beyond the elements of the list.) *)
Fixpoint one_run {A : Type} (key : A -> f64) (l : list A) : bool :=
  match l with
  | [] => true
  | x :: l' =>
      match l' with
      | [] => true
      | y :: _ => negb (fltb (key y) (key x)) && one_run key l'
      end
  end.

Fixpoint sort_insert {A : Type} (key : A -> f64) (x : A) (l : list A) : list A :=
  match l with
  | [] => [x]
  | y :: l' => if fltb (key x) (key y) then x :: y :: l' else y :: sort_insert key x l'
  end.

Definition stable_sort {A : Type} (key : A -> f64) (l : list A) : list A :=
  fold_left (fun acc x => sort_insert key x acc) l [].

Definition list_sort {A : Type} (key : A -> f64) (l : list A) : list A :=
  if one_run key l then l else stable_sort key l.

Definition register_strategy (f : ShippingStrategyFactory) (strategy : ShippingStrategy)
  : ShippingStrategyFactory :=
  {| _strategies := list_sort min_distance (_strategies f ++ [strategy]) |}.

(* ================================================================= *)
(** ** Distance calculator ([services/distance_calculator.py]) *)

Definition EARTH_RADIUS_KM : f64 := of_Z 6371.

(** [DistanceCalculator.calculate]: the Haversine formula, in the
    order Python evaluates it; a [math] call that raises ends it. *)
Definition calculate (P : Platform) (location1 location2 : Location) : result f64 :=
  let lat1 := math_radians (lat location1) in
  let lat2 := math_radians (lat location2) in
  let lon1 := math_radians (lng location1) in
  let lon2 := math_radians (lng location2) in
  let dlat := fsub lat2 lat1 in
  let dlon := fsub lon2 lon1 in
  sin_dlat <- math_sin P (fdiv dlat (of_Z 2)) ;;
  sq_dlat <- float_pow_2 P sin_dlat ;;
  cos1 <- math_cos P lat1 ;;
  cos2 <- math_cos P lat2 ;;
  sin_dlon <- math_sin P (fdiv dlon (of_Z 2)) ;;
  sq_dlon <- float_pow_2 P sin_dlon ;;
  let a := fadd sq_dlat (fmul (fmul cos1 cos2) sq_dlon) in
  root_a <- math_sqrt a ;;
  root_1a <- math_sqrt (fsub (of_Z 1) a) ;;
  angle <- math_atan2 P root_a root_1a ;;
  let c := fmul (of_Z 2) angle in
  let distance := fmul EARTH_RADIUS_KM c in
  Ok (round2 distance).

Definition calculate_from_coords (P : Platform) (lat1 lng1 lat2 lng2 : f64) : result f64 :=
  location1 <- Location_init P lat1 lng1 ;;
  location2 <- Location_init P lat2 lng2 ;;
  calculate P location1 location2.

(* ================================================================= *)
(** ** Warehouse service ([services/warehouse_service.py]) *)

Record WarehouseService : Type := {
  ws_warehouse_repo : store Warehouse;
  ws_seller_repo : store Seller
}.

(** The loop of [find_nearest_warehouse], with its two variables
    [nearest] and [min_distance]. *)
Fixpoint nearest_loop (P : Platform) (seller_location : Location)
  (warehouses : list Warehouse) (nearest : option Warehouse) (min_dist : f64)
  : result (option Warehouse * f64) :=
  match warehouses with
  | [] => Ok (nearest, min_dist)
  | warehouse :: rest =>
      distance <- calculate P seller_location (w_location warehouse) ;;
      if fltb distance min_dist
      then nearest_loop P seller_location rest (Some warehouse) distance
      else nearest_loop P seller_location rest nearest min_dist
  end.

Definition find_nearest_warehouse (P : Platform) (svc : WarehouseService) (sid : Z)
  : result (option Warehouse * f64) :=
  match get_by_id (ws_seller_repo svc) sid with
  | None => Raise (NotFoundError ("Seller with ID " ++ str_int sid ++ " not found"))
  | Some seller =>
      match get_all (ws_warehouse_repo svc) with
      | [] => Raise (NotFoundError "No warehouses available in the system")
      | warehouses =>
          nearest_loop P (s_location seller) warehouses None (Inf false)
      end
  end.

Definition get_warehouse (svc : WarehouseService) (wid : Z) : result Warehouse :=
  match get_by_id (ws_warehouse_repo svc) wid with
  | None => Raise (NotFoundError ("Warehouse with ID " ++ str_int wid ++ " not found"))
  | Some warehouse => Ok warehouse
  end.

(* ================================================================= *)
(** ** Shipping charge service ([services/shipping_charge_service.py]) *)

Inductive DeliverySpeed : Type := STANDARD | EXPRESS.

Definition speed_value (s : DeliverySpeed) : string :=
  match s with
  | STANDARD => "standard"
  | EXPRESS => "express"
  end.

(** [DeliverySpeed(value)]: the member with that value, or [None]
    where Python raises the [ValueError] the caller catches. *)
Definition DeliverySpeed_of_value (v : string) : option DeliverySpeed :=
  if String.eqb v "standard" then Some STANDARD
  else if String.eqb v "express" then Some EXPRESS
  else None.

Record DeliveryCost : Type := {
  base_charge : f64;
  extra_charge : f64;
  total : f64;
  speed : string
}.

Record ShippingChargeResult : Type := {
  shipping_charge : f64;
  distance_km : f64;
  transport_mode : string;
  transport_cost : f64;
  delivery_cost : DeliveryCost;
  r_weight_kg : f64
}.

Record TotalShippingResult : Type := {
  t_shipping_charge : f64;
  nearest_warehouse : Warehouse;
  t_distance_km : f64;
  breakdown : ShippingChargeResult
}.

Record ShippingChargeService : Type := {
  _warehouse_repo : store Warehouse;
  _customer_repo : store Customer;
  _product_repo : store Product;
  _warehouse_service : WarehouseService;
  _strategy_factory : ShippingStrategyFactory
}.

Definition BASE_COURIER_CHARGE : f64 := of_Z 10.
Definition EXPRESS_EXTRA_PER_KG : f64 := of_ratio false 12 10.

Definition _validate_delivery_speed (speed_str : string) : result DeliverySpeed :=
  match DeliverySpeed_of_value (lower speed_str) with
  | Some s => Ok s
  | None =>
      Raise (ValidationError
               ("Invalid delivery speed '" ++ speed_str
                ++ "'. Supported speeds: ['standard', 'express']"))
  end.

Definition _calculate_delivery_cost (sp : DeliverySpeed) (weight : f64) : DeliveryCost :=
  let base := BASE_COURIER_CHARGE in
  let extra :=
    match sp with
    | EXPRESS => fmul EXPRESS_EXTRA_PER_KG weight
    | STANDARD => of_Z 0
    end in
  {| base_charge := base;
     extra_charge := round2 extra;
     total := round2 (fadd base extra);
     speed := speed_value sp |}.

(** The second half of [calculate_from_warehouse], from the distance
    on: strategy, transport cost, delivery cost and the result. *)
Definition charge_for_distance (P : Platform) (f : ShippingStrategyFactory)
  (sp : DeliverySpeed) (dist weight : f64) : result ShippingChargeResult :=
  strategy <- get_strategy P f dist ;;
  let transport_result := calculate_cost strategy dist weight in
  let delivery := _calculate_delivery_cost sp weight in
  let total_charge := fadd (cr_transport_cost transport_result) (total delivery) in
  Ok {| shipping_charge := round2 total_charge;
        distance_km := dist;
        transport_mode := cr_transport_mode transport_result;
        transport_cost := cr_transport_cost transport_result;
        delivery_cost := delivery;
        r_weight_kg := weight |}.

Definition calculate_from_warehouse (P : Platform) (svc : ShippingChargeService)
  (wid cid pid : Z) (delivery_speed : string) : result ShippingChargeResult :=
  sp <- _validate_delivery_speed delivery_speed ;;
  match get_by_id (_warehouse_repo svc) wid with
  | None => Raise (NotFoundError ("Warehouse with ID " ++ str_int wid ++ " not found"))
  | Some warehouse =>
  match get_by_id (_customer_repo svc) cid with
  | None => Raise (NotFoundError ("Customer with ID " ++ str_int cid ++ " not found"))
  | Some customer =>
  match get_by_id (_product_repo svc) pid with
  | None => Raise (NotFoundError ("Product with ID " ++ str_int pid ++ " not found"))
  | Some product =>
      dist <- calculate P (w_location warehouse) (c_location customer) ;;
      charge_for_distance P (_strategy_factory svc) sp dist (weight_kg product)
  end end end.

Definition calculate_total (P : Platform) (svc : ShippingChargeService)
  (sid cid pid : Z) (delivery_speed : string) : result TotalShippingResult :=
  match get_by_id (_product_repo svc) pid with
  | None => Raise (NotFoundError ("Product with ID " ++ str_int pid ++ " not found"))
  | Some _ =>
      found <- find_nearest_warehouse P (_warehouse_service svc) sid ;;
      let '(nearest, seller_to_warehouse_distance) := found in
      match nearest with
      | None => Raise (AttributeError "'NoneType' object has no attribute 'warehouse_id'")
      | Some nearest_wh =>
          shipping_result <-
            calculate_from_warehouse P svc (warehouse_id nearest_wh) cid pid delivery_speed ;;
          Ok {| t_shipping_charge := shipping_charge shipping_result;
                nearest_warehouse := nearest_wh;
                t_distance_km := distance_km shipping_result;
                breakdown := shipping_result |}
      end
  end.

(* ================================================================= *)
(** ** Wiring ([core/dependencies.py]) *)

Record Repositories : Type := {
  customer : store Customer;
  seller : store Seller;
  product : store Product;
  warehouse : store Warehouse
}.

(** [get_services]: both services are built over the same
    repositories, and the charge service gets a fresh factory. *)
Definition make_warehouse_service (repos : Repositories) : WarehouseService :=
  {| ws_warehouse_repo := warehouse repos; ws_seller_repo := seller repos |}.

Definition make_shipping_charge_service (repos : Repositories) : ShippingChargeService :=
  {| _warehouse_repo := warehouse repos;
     _customer_repo := customer repos;
     _product_repo := product repos;
     _warehouse_service := make_warehouse_service repos;
     _strategy_factory := factory_init |}.

(* ================================================================= *)
(** ** A platform and a data set to run the model on *)

(** Small-angle stand-ins for the C library: [sin x ~ x],
    [cos x ~ 1 - x^2/2] (0 where that leaves [-1, 1]),
    [atan2 y x ~ y / x], and [pow x 2 = x * x]. *)
Definition small_angle_cos (x : f64) : f64 :=
  let c := fsub (of_Z 1) (fdiv (fmul x x) (of_Z 2)) in
  if fleb (fabs c) (of_Z 1) then c else Fin false 0.

Definition small_angle : Platform :=
  {| libm_sin := fun x => x;
     libm_cos := small_angle_cos;
     libm_atan2 := fun y x => fdiv y x;
     libm_pow := fun x _ => fmul x x;
     repr_float := fun _ => "<float>"%string |}.

(** A decimal literal with four digits after the point. *)
Definition dec4 (n : Z) : f64 := of_ratio (n <? 0) (Z.abs n) 10000.

Definition loc (la lo : Z) : Location := {| lat := dec4 la; lng := dec4 lo |}.

(** The first entries of [data/seed.py]. *)
Definition mumbai_warehouse : Warehouse :=
  {| warehouse_id := 1; w_location := loc 190760 728777;
     w_name := "Mumbai Central Warehouse" |}.

Definition delhi_warehouse : Warehouse :=
  {| warehouse_id := 2; w_location := loc 287041 771025;
     w_name := "Delhi Distribution Center" |}.

Definition sharma_store : Seller :=
  {| seller_id := 1; s_name := "Sharma General Store";
     s_location := loc 191136 728697 |}.

Definition rahul_verma : Customer :=
  {| customer_id := 1; c_name := "Rahul Verma"; c_phone := "+91-9876543210";
     c_location := loc 185204 738567 |}.

Definition rice_pack : Product :=
  {| product_id := 1; p_name := "Rice (5kg Pack)"; price := of_Z 350;
     weight_kg := of_Z 5; dimensions := None |}.

Definition seed_repositories : Repositories :=
  {| warehouse := add (add repo_empty mumbai_warehouse) delhi_warehouse;
     seller := add repo_empty sharma_store;
     customer := add repo_empty rahul_verma;
     product := add repo_empty rice_pack |}.

(** A strategy registered at run time, between the first two tiers. *)
Definition cargo_bike : ShippingStrategy :=
  {| min_distance := of_Z 20; max_distance := of_Z 60;
     rate_per_km_per_kg := of_Z 5; mode_name := "Cargo Bike" |}.

(** Two more to register: one whose [min_distance] is nan, and one
    for 50 to 80 km. *)
Definition drone : ShippingStrategy :=
  {| min_distance := NaN; max_distance := of_Z 30;
     rate_per_km_per_kg := of_Z 4; mode_name := "Drone" |}.

Definition courier : ShippingStrategy :=
  {| min_distance := of_Z 50; max_distance := of_Z 80;
     rate_per_km_per_kg := of_Z 4; mode_name := "Courier" |}.

Definition seed_service : ShippingChargeService :=
  make_shipping_charge_service seed_repositories.

(** A seller and a warehouse nearly opposite each other on the globe:
    24 degrees of latitude and 180 of longitude apart. *)
Definition far_seller : Seller :=
  {| seller_id := 7; s_name := "Far Store";
     s_location := {| lat := of_Z (-12); lng := of_ratio true 5475 100 |} |}.

Definition far_warehouse : Warehouse :=
  {| warehouse_id := 7;
     w_location := {| lat := of_Z 12; lng := of_ratio false 12525 100 |};
     w_name := "Far Warehouse" |}.

Definition far_service : WarehouseService :=
  {| ws_warehouse_repo := add repo_empty far_warehouse;
     ws_seller_repo := add repo_empty far_seller |}.

(** The arguments [calculate] passes to the C library for that pair,
    and what the library (glibc, x86-64) returns there:
    [sin] of half the difference in latitude and of half the
    difference in longitude, [cos] of either latitude, and the square
    of the first sine. *)
Definition half_dlat : f64 := of_ratio false 3772926801081835 (2 ^ 54).
Definition half_dlon : f64 := of_ratio false 884279719003555 (2 ^ 49).
Definition sin_half_dlat : f64 := of_ratio false 3745404053171323 (2 ^ 54).
Definition sin_half_dlon : f64 := of_Z 1.
Definition cos_lat : f64 := of_ratio false 68831018284033 (2 ^ 46).
Definition sin_half_dlat_squared : f64 := of_ratio false 3114853157962155 (2 ^ 56).

(** The C library at these arguments; elsewhere the stand-ins. *)
Definition libm_at_far_pair : Platform :=
  {| libm_sin := fun x =>
       if feqb x half_dlat then sin_half_dlat
       else if feqb x half_dlon then sin_half_dlon
       else x;
     libm_cos := fun x =>
       if feqb (fabs x) half_dlat then cos_lat else small_angle_cos x;
     libm_atan2 := fun y x => fdiv y x;
     libm_pow := fun x _ =>
       if feqb x sin_half_dlat then sin_half_dlat_squared else fmul x x;
     repr_float := fun _ => "<float>"%string |}.

(* ================================================================= *)
(** ** The model against the kernel's floats *)

Module Samples.
Import PrimFloat.

(** Pairs of binary64 values: everyday decimals, the constants of the
    sources, subnormals, values next to a power of two and to the
    largest float. *)
Definition float_samples : list (PrimFloat.float * PrimFloat.float) :=
  [ (0x1.3333333333333p+0, 0x1.999999999999ap-7);
    (0x1.4p+3, 0x1.eb851eb851eb8p-7);
    (0x1.999999999999ap-4, 0x1.999999999999ap-3);
    (0x1.8p+1, 0x1.4051eb851eb85p+3);
    (0x1.8e3p+12, 0x1.0c152382d7365p+1);
    (0x1.1ccf385ebc8ap+1023, 0x1.4p+3);
    (0x0.00000000007e8p-1022, 0x1.3333333333333p-2);
    (0x0.0000000000001p-1022, 0x1p-1);
    (0x1.e240c9fbe76c9p+16, -0x1.0624dd2f1a9fcp-10);
    (0x1.fffffffffffffp+1023, 0x1.0000000000001p+0);
    (0x1.fffffffffffffp-1, 0x1.fffffffffffffp-1);
    (-0x1.4p+2, 0x1.4p+2);
    (0x1.1fa182c40c60dp-1022, 0x1.6666666666666p-1);
    (0x1.921fb54442d18p+1, 0x1.68p+7) ]%float.

(** The constants of the sources, as Python reads them: 1.2, 10.0,
    6371.0, [math.pi] and [math.pi / 180.0]. *)
Definition python_constants : list (f64 * PrimFloat.float) :=
  [ (EXPRESS_EXTRA_PER_KG, 0x1.3333333333333p+0);
    (BASE_COURIER_CHARGE, 0x1.4p+3);
    (EARTH_RADIUS_KM, 0x1.8e3p+12);
    (math_pi, 0x1.921fb54442d18p+1);
    (degToRad, 0x1.1df46a2529d39p-6) ]%float.

End Samples.

(** The model's operation [f] gives, on the pair, the float the
    kernel's operation [g] gives. *)
Definition agrees (f : f64 -> f64 -> f64)
  (g : PrimFloat.float -> PrimFloat.float -> PrimFloat.float)
  (ab : PrimFloat.float * PrimFloat.float) : bool :=
  let r := f (of_prim (fst ab)) (of_prim (snd ab)) in
  let r' := g (fst ab) (snd ab) in
  if PrimFloat.is_nan r' then is_nan r
  else PrimFloat.eqb (to_prim r) r' && wf r.

Definition agrees_sqrt (ab : PrimFloat.float * PrimFloat.float) : bool :=
  let r := fsqrt (of_prim (PrimFloat.abs (fst ab))) in
  PrimFloat.eqb (to_prim r) (PrimFloat.sqrt (PrimFloat.abs (fst ab))) && wf r.

(* ================================================================= *)
(** ** Notions used in the statements *)

(** A magnitude with its sign. *)
Definition smag (s : bool) (m : Z) : Z := if s then - m else m.


(** [calculate] in two steps: the squared sine of half a difference,
    and what follows once both squared sines and both cosines are
    known. *)
Definition squared_sine (P : Platform) (delta : f64) : result f64 :=
  s <- math_sin P (fdiv delta (of_Z 2)) ;; float_pow_2 P s.

Definition haversine_tail (P : Platform) (sq_dlat sq_dlon cos1 cos2 : f64) : result f64 :=
  let a := fadd sq_dlat (fmul (fmul cos1 cos2) sq_dlon) in
  root_a <- math_sqrt a ;;
  root_1a <- math_sqrt (fsub (of_Z 1) a) ;;
  angle <- math_atan2 P root_a root_1a ;;
  Ok (round2 (fmul EARTH_RADIUS_KM (fmul (of_Z 2) angle))).

(** The order [list.sort] is called with: by key. *)
Definition key_le {A : Type} (key : A -> f64) (a b : A) : Prop :=
  fleb (key a) (key b) = true.

(** A list of strategies in ascending order of [min_distance]. *)
Definition ascending (l : list ShippingStrategy) : Prop :=
  StronglySorted (key_le min_distance) l.


(** [c] is the small letter [l] or its capital. *)
Definition letter_or_capital (c l : ascii) : Prop :=
  c = l
  \/ ((97 <= nat_of_ascii l <= 122)%nat /\ (nat_of_ascii c + 32 = nat_of_ascii l)%nat).

(** [s] spells the word [w] letter by letter, each letter small or
    capital. *)
Definition spells (s w : string) : Prop :=
  Forall2 letter_or_capital (list_ascii_of_string s) (list_ascii_of_string w).

(** No character of [w] is a capital letter. *)
Definition no_capital (w : string) : Prop :=
  Forall (fun l => ~ (65 <= nat_of_ascii l <= 90)%nat) (list_ascii_of_string w).

(** Settles [spells s w] for two given strings. *)
Ltac spell_out :=
  unfold spells; cbn [speed_value list_ascii_of_string];
  repeat (apply Forall2_cons; [first [left; reflexivity | right; vm_compute; lia]|]);
  apply Forall2_nil.

(** Case analysis on every float in sight. *)
Ltac f64_cases :=
  repeat match goal with
         | x : f64 |- _ => destruct x as [|[|]|[|] ?]
         end;
  simpl in *; unfold sval in *; try discriminate; try reflexivity; try lia.


(* ================================================================= *)
(** * Properties *)

(** ** Rounding *)

Section Rounding.

Lemma reduce2_spec (a b : positive) :
  exists c : positive,
    a = (fst (reduce2 a b) * c)%positive /\ b = (snd (reduce2 a b) * c)%positive.
Proof.
  revert b. induction a as [a IH|a IH|]; intros b;
    try (exists 1%positive; cbn; rewrite ?Pos.mul_1_r; split; reflexivity).
  destruct b as [b|b|];
    try (exists 1%positive; cbn; rewrite ?Pos.mul_1_r; split; reflexivity).
  destruct (IH b) as (c & Ha & Hb). exists (c~0)%positive. cbn [reduce2].
  split; [rewrite Ha at 1|rewrite Hb at 1]; lia.
Qed.

Lemma reduced_spec (p q : Z) :
  exists c, 0 < c /\ p = fst (reduced p q) * c /\ q = snd (reduced p q) * c.
Proof.
  destruct p as [|a|a], q as [|b|b];
    try (exists 1; cbn [reduced fst snd]; repeat split; lia).
  destruct (reduce2_spec a b) as (c & Ha & Hb). exists (Zpos c).
  unfold reduced. destruct (reduce2 a b) as [a' b']. cbn [fst snd] in *.
  split; [lia|]. split; lia.
Qed.

Lemma qfloor_eq (p q : Z) : qfloor p q = p / q.
Proof.
  unfold qfloor. destruct (reduced_spec p q) as (c & Hc & Hp & Hq).
  destruct (reduced p q) as [p' q']. cbn [fst snd] in *. subst p q.
  destruct (Z.eq_dec q' 0) as [->|N].
  - rewrite Z.mul_0_l, !Z.div_0_r. reflexivity.
  - rewrite Z.div_mul_cancel_r by lia. reflexivity.
Qed.

Lemma rhe_eq (p q : Z) : rhe p q = rhe_raw p q.
Proof.
  unfold rhe. destruct (reduced_spec p q) as (c & Hc & Hp & Hq).
  destruct (reduced p q) as [p' q']. cbn [fst snd] in *. subst p q.
  destruct (Z.eq_dec q' 0) as [->|N].
  - unfold rhe_raw. rewrite Z.mul_0_l, !Z.div_0_r, !Z.mod_0_r.
    destruct (Z.compare_spec (2 * p') 0), (Z.compare_spec (2 * (p' * c)) 0);
      try reflexivity; nia.
  - unfold rhe_raw. rewrite Z.div_mul_cancel_r, Z.mul_mod_distr_r by lia.
    destruct (Z.compare_spec (2 * (p' mod q')) q'),
             (Z.compare_spec (2 * (p' mod q' * c)) (q' * c)); try reflexivity; nia.
Qed.

Lemma rhe_bounds (p q : Z) :
  0 < q -> 2 * p - q <= 2 * q * rhe p q <= 2 * p + q.
Proof.
  intros Hq. rewrite rhe_eq. unfold rhe_raw.
  pose proof (Z.div_mod p q ltac:(lia)) as E.
  pose proof (Z.mod_pos_bound p q Hq) as B.
  destruct (Z.compare_spec (2 * (p mod q)) q); [destruct (Z.even (p / q))| |]; nia.
Qed.

Lemma rhe_tie_even (p q : Z) :
  0 < q -> (2 * q * rhe p q = 2 * p - q \/ 2 * q * rhe p q = 2 * p + q) ->
  Z.even (rhe p q) = true.
Proof.
  intros Hq. rewrite rhe_eq. unfold rhe_raw.
  pose proof (Z.div_mod p q ltac:(lia)) as E.
  pose proof (Z.mod_pos_bound p q Hq) as B.
  destruct (Z.compare_spec (2 * (p mod q)) q) as [C|C|C].
  - destruct (Z.even (p / q)) eqn:Ev; intros _; [exact Ev|].
    rewrite Z.even_add, Ev. reflexivity.
  - intros [T|T]; exfalso; nia.
  - intros [T|T]; exfalso; nia.
Qed.

Lemma rhe_mono (p1 q1 p2 q2 : Z) :
  0 < q1 -> 0 < q2 -> p1 * q2 <= p2 * q1 -> rhe p1 q1 <= rhe p2 q2.
Proof.
  intros H1 H2 Hle.
  pose proof (rhe_bounds p1 q1 H1) as B1.
  pose proof (rhe_bounds p2 q2 H2) as B2.
  pose proof (rhe_tie_even p1 q1 H1) as T1.
  pose proof (rhe_tie_even p2 q2 H2) as T2.
  set (m1 := rhe p1 q1) in *. set (m2 := rhe p2 q2) in *.
  destruct (Z_le_gt_dec m1 m2) as [|Hgt]; [assumption|exfalso].
  assert (U1 : 2 * q1 * m1 * q2 <= (2 * p1 + q1) * q2) by nia.
  assert (L2 : (2 * p2 - q2) * q1 <= 2 * q2 * m2 * q1) by nia.
  assert (Hm : m1 = m2 + 1) by nia.
  assert (Tie1 : 2 * q1 * m1 = 2 * p1 + q1) by nia.
  assert (Tie2 : 2 * q2 * m2 = 2 * p2 - q2) by nia.
  specialize (T1 (or_intror Tie1)). specialize (T2 (or_introl Tie2)).
  rewrite Hm, Z.even_add, T2 in T1. discriminate.
Qed.

Lemma rhe_exact (n q : Z) : 0 < q -> rhe (n * q) q = n.
Proof.
  intros Hq. rewrite rhe_eq. unfold rhe_raw.
  rewrite Z.div_mul, Z.mod_mul by lia.
  destruct (Z.compare_spec (2 * 0) q); try lia. 
Qed.

Lemma rhe_nonneg (p q : Z) : 0 <= p -> 0 < q -> 0 <= rhe p q.
Proof.
  intros Hp Hq. rewrite <- (rhe_exact 0 q Hq).
  apply rhe_mono; lia.
Qed.

Lemma div_cross_mono (p1 q1 p2 q2 : Z) :
  0 < q1 -> 0 < q2 -> p1 * q2 <= p2 * q1 -> p1 / q1 <= p2 / q2.
Proof.
  intros H1 H2 Hle.
  pose proof (Z.div_mod p1 q1 ltac:(lia)). pose proof (Z.mod_pos_bound p1 q1 H1).
  pose proof (Z.div_mod p2 q2 ltac:(lia)). pose proof (Z.mod_pos_bound p2 q2 H2).
  destruct (Z_le_gt_dec (p1 / q1) (p2 / q2)); [assumption|exfalso].
  assert (q1 * (p2 / q2 + 1) <= q1 * (p1 / q1)) by nia.
  nia.
Qed.

Lemma shift_of_nonneg (t : Z) : 0 <= shift_of t.
Proof. unfold shift_of. lia. Qed.

Lemma shift_of_mono (t1 t2 : Z) : t1 <= t2 -> shift_of t1 <= shift_of t2.
Proof.
  intros H. unfold shift_of. pose proof (Z.log2_le_mono t1 t2 H). lia.
Qed.

(** A magnitude lies below [2^(53 + shift)]. *)
Lemma shift_of_upper (t : Z) : t < 2 ^ (53 + shift_of t).
Proof.
  destruct (Z_le_gt_dec t 0) as [Hz|Hp].
  - pose proof (shift_of_nonneg t).
    assert (0 < 2 ^ (53 + shift_of t)) by (apply Z.pow_pos_nonneg; lia). lia.
  - pose proof (Z.log2_spec t ltac:(lia)) as [_ Hu].
    eapply Z.lt_le_trans; [exact Hu|].
    apply Z.pow_le_mono_r; [lia|]. unfold shift_of. lia.
Qed.

(** With a positive shift it reaches [2^(52 + shift)]. *)
Lemma shift_of_lower (t : Z) : 0 < shift_of t -> 2 ^ (52 + shift_of t) <= t.
Proof.
  intros Hs. unfold shift_of in *.
  assert (Ht : 0 < t).
  { destruct (Z_le_gt_dec t 0); [|lia].
    rewrite Z.log2_nonpos in Hs by lia. lia. }
  pose proof (Z.log2_spec t Ht) as [Hl _].
  replace (52 + Z.max 0 (Z.log2 t - 52)) with (Z.log2 t) by lia. exact Hl.
Qed.

Lemma rnd_mag_mono (p1 q1 p2 q2 : Z) :
  0 < q1 -> 0 < q2 -> p1 * q2 <= p2 * q1 -> rnd_mag p1 q1 <= rnd_mag p2 q2.
Proof.
  intros H1 H2 Hle. unfold rnd_mag. rewrite !qfloor_eq.
  rewrite !(Z.mul_comm (2 ^ _) (rhe _ _)).
  pose proof (div_cross_mono p1 q1 p2 q2 H1 H2 Hle) as Ht.
  pose proof (shift_of_mono _ _ Ht) as Hs.
  pose proof (shift_of_nonneg (p1 / q1)) as Hn1.
  set (sh1 := shift_of (p1 / q1)) in *. set (sh2 := shift_of (p2 / q2)) in *.
  assert (P1 : 0 < 2 ^ sh1) by (apply Z.pow_pos_nonneg; lia).
  assert (P2 : 0 < 2 ^ sh2) by (apply Z.pow_pos_nonneg; lia).
  destruct (Z.eq_dec sh1 sh2) as [E|NE].
  - rewrite <- E.
    apply Z.mul_le_mono_nonneg_r; [lia|].
    apply rhe_mono; nia.
  - assert (Hlt : sh1 < sh2) by lia.
    (* the first result stays within its binade, the second has left it *)
    assert (U : rhe p1 (q1 * 2 ^ sh1) <= 2 ^ 53).
    { rewrite <- (rhe_exact (2 ^ 53) (q1 * 2 ^ sh1)) by nia.
      apply rhe_mono; try nia.
      pose proof (shift_of_upper (p1 / q1)) as Hu. fold sh1 in Hu.
      rewrite Z.pow_add_r in Hu by lia.
      pose proof (Z.div_mod p1 q1 ltac:(lia)). pose proof (Z.mod_pos_bound p1 q1 H1).
      assert (p1 / q1 + 1 <= 2 ^ 53 * 2 ^ sh1) by lia.
      assert (q1 * (p1 / q1 + 1) <= q1 * (2 ^ 53 * 2 ^ sh1)) by (apply Z.mul_le_mono_nonneg_l; lia).
      assert (p1 <= 2 ^ 53 * 2 ^ sh1 * q1) by lia.
      nia. }
    assert (L : 2 ^ 52 <= rhe p2 (q2 * 2 ^ sh2)).
    { rewrite <- (rhe_exact (2 ^ 52) (q2 * 2 ^ sh2)) by nia.
      apply rhe_mono; try nia.
      pose proof (shift_of_lower (p2 / q2)) as Hl. fold sh2 in Hl.
      specialize (Hl ltac:(lia)).
      rewrite Z.pow_add_r in Hl by lia.
      pose proof (Z.div_mod p2 q2 ltac:(lia)). pose proof (Z.mod_pos_bound p2 q2 H2).
      assert (q2 * (2 ^ 52 * 2 ^ sh2) <= q2 * (p2 / q2)) by (apply Z.mul_le_mono_nonneg_l; lia).
      nia. }
    assert (G : 2 * 2 ^ sh1 <= 2 ^ sh2).
    { replace sh2 with (1 + sh1 + (sh2 - sh1 - 1)) by lia.
      rewrite !Z.pow_add_r by lia.
      assert (0 < 2 ^ (sh2 - sh1 - 1)) by (apply Z.pow_pos_nonneg; lia).
      change (2 ^ 1) with 2. nia. }
    apply Z.le_trans with (2 ^ 53 * 2 ^ sh1); [nia|].
    apply Z.le_trans with (2 ^ 52 * 2 ^ sh2); [|nia].
    change (2 ^ 53) with (2 * 2 ^ 52). 
    assert (0 < 2 ^ 52) by reflexivity. nia.
Qed.

Lemma rnd_mag_nonneg (p q : Z) : 0 <= p -> 0 < q -> 0 <= rnd_mag p q.
Proof.
  intros Hp Hq. unfold rnd_mag. rewrite qfloor_eq.
  pose proof (shift_of_nonneg (p / q)).
  assert (0 < 2 ^ shift_of (p / q)) by (apply Z.pow_pos_nonneg; lia).
  pose proof (rhe_nonneg p (q * 2 ^ shift_of (p / q)) Hp ltac:(nia)). nia.
Qed.

Lemma rnd_mag_zero (q : Z) : 0 < q -> rnd_mag 0 q = 0.
Proof.
  intros Hq. unfold rnd_mag. rewrite qfloor_eq, Z.div_0_l by lia.
  change (shift_of 0) with 0. change (2 ^ 0) with 1.
  rewrite Z.mul_1_r, Z.mul_1_l. exact (rhe_exact 0 q Hq).
Qed.
End Rounding.


(** ** The model against the kernel's floats *)

(** On the samples, the four operations and the square root of the
    model give the floats the hardware gives, and conversion to the
    model and back is the identity. *)
Lemma model_agrees_with_kernel_floats :
  forallb (agrees fadd PrimFloat.add) Samples.float_samples = true
  /\ forallb (agrees fsub PrimFloat.sub) Samples.float_samples = true
  /\ forallb (agrees fmul PrimFloat.mul) Samples.float_samples = true
  /\ forallb (agrees fdiv PrimFloat.div) Samples.float_samples = true
  /\ forallb agrees_sqrt Samples.float_samples = true
  /\ forallb (agrees (fun a _ => a) (fun a _ => a)) Samples.float_samples = true.
Proof. vm_compute. repeat split; reflexivity. Qed.

(** The constants of the sources are the floats Python reads. *)
Lemma constants_as_python_reads_them :
  forallb (fun c => PrimFloat.eqb (to_prim (fst c)) (snd c)) Samples.python_constants
  = true.
Proof. vm_compute. reflexivity. Qed.

(** ** Order and monotonicity of the float operations *)

(** *** Order *)


Lemma fltb_fleb (x y : f64) : fltb x y = true -> fleb x y = true.
Proof. f64_cases. Qed.

Lemma fleb_refl (x : f64) : is_nan x = false -> fleb x x = true.
Proof. f64_cases. Qed.

Lemma fleb_trans (x y z : f64) : fleb x y = true -> fleb y z = true -> fleb x z = true.
Proof. f64_cases. Qed.

Lemma fltb_trans (x y z : f64) : fltb x y = true -> fltb y z = true -> fltb x z = true.
Proof. f64_cases. Qed.

Lemma fleb_fltb_trans (x y z : f64) : fleb x y = true -> fltb y z = true -> fltb x z = true.
Proof. f64_cases. Qed.

Lemma fltb_fleb_trans (x y z : f64) : fltb x y = true -> fleb y z = true -> fltb x z = true.
Proof. f64_cases. Qed.

Lemma fltb_irrefl (x : f64) : fltb x x = false.
Proof. f64_cases. Qed.

(** On floats that are not nan, [<] is the negation of [>=]. *)
Lemma fltb_negb_fleb (x y : f64) :
  is_nan x = false -> is_nan y = false -> fltb x y = negb (fleb y x).
Proof. f64_cases. Qed.

Lemma fleb_not_nan (x y : f64) : fleb x y = true -> is_nan x = false /\ is_nan y = false.
Proof. f64_cases; auto. Qed.

Lemma fltb_not_nan (x y : f64) : fltb x y = true -> is_nan x = false /\ is_nan y = false.
Proof. f64_cases; auto. Qed.

Lemma fleb_inf_r (x : f64) : is_nan x = false -> fleb x (Inf false) = true.
Proof. f64_cases. Qed.

Lemma fleb_inf_l (x : f64) : is_nan x = false -> fleb (Inf true) x = true.
Proof. f64_cases. Qed.

(** *** Monotonicity of the operations *)


Lemma smag_mul (s1 s2 : bool) (a b c : Z) :
  0 <= c -> smag s1 a <= smag s2 b -> smag s1 (a * c) <= smag s2 (b * c).
Proof. intros Hc H. unfold smag in *. destruct s1, s2; nia. Qed.

Lemma smag_mul_out (s : bool) (a c : Z) : smag s a * c = smag s (a * c).
Proof. unfold smag. destruct s; lia. Qed.

Lemma top_pos : 0 < top.
Proof. reflexivity. Qed.

Lemma scale_pos : 0 < scale.
Proof. reflexivity. Qed.

Lemma pack_fleb (s1 s2 : bool) (m1 m2 : Z) :
  0 <= m1 -> 0 <= m2 -> smag s1 m1 <= smag s2 m2 ->
  fleb (pack s1 m1) (pack s2 m2) = true.
Proof.
  intros H1 H2 H. unfold pack, smag in *. pose proof top_pos.
  destruct (Z.ltb_spec m1 top), (Z.ltb_spec m2 top), s1, s2;
    simpl; unfold sval; try reflexivity; try lia;
    apply Z.leb_le; rewrite !Z2N.id by lia; lia.
Qed.

Lemma pack_not_nan (s : bool) (m : Z) : is_nan (pack s m) = false.
Proof. unfold pack. destruct (m <? top); reflexivity. Qed.

(** Rounding two signed non-negative ratios keeps their order. *)
Lemma signed_round_mono (s1 s2 : bool) (p1 q1 p2 q2 : Z) :
  0 <= p1 -> 0 <= p2 -> 0 < q1 -> 0 < q2 ->
  smag s1 p1 * q2 <= smag s2 p2 * q1 ->
  fleb (pack s1 (rnd_mag p1 q1)) (pack s2 (rnd_mag p2 q2)) = true.
Proof.
  intros Hp1 Hp2 Hq1 Hq2 H.
  pose proof (rnd_mag_nonneg p1 q1 Hp1 Hq1) as N1.
  pose proof (rnd_mag_nonneg p2 q2 Hp2 Hq2) as N2.
  apply pack_fleb; try assumption.
  unfold smag in *. destruct s1, s2; cbv iota in *.
  - pose proof (rnd_mag_mono p2 q2 p1 q1 Hq2 Hq1 ltac:(lia)). lia.
  - lia.
  - assert (p1 = 0) by nia. assert (p2 = 0) by nia. subst.
    rewrite !rnd_mag_zero by assumption. lia.
  - apply rnd_mag_mono; assumption.
Qed.

Lemma round2_fin_mono (s1 s2 : bool) (k1 k2 : N) :
  sval s1 k1 <= sval s2 k2 ->
  fleb (round2 (Fin s1 k1)) (round2 (Fin s2 k2)) = true.
Proof.
  intros H. unfold round2.
  pose proof scale_pos as Hs.
  pose proof (rhe_nonneg (100 * Z.of_N k1) scale ltac:(lia) Hs) as N1.
  pose proof (rhe_nonneg (100 * Z.of_N k2) scale ltac:(lia) Hs) as N2.
  apply signed_round_mono; try nia.
  unfold smag, sval in *. destruct s1, s2; cbv iota in *.
  - pose proof (rhe_mono (100 * Z.of_N k2) scale (100 * Z.of_N k1) scale Hs Hs ltac:(nia)). nia.
  - nia.
  - assert (E1 : Z.of_N k1 = 0) by lia. assert (E2 : Z.of_N k2 = 0) by lia.
    rewrite E1, E2. change (100 * 0) with (0 * scale). rewrite rhe_exact by assumption. lia.
  - pose proof (rhe_mono (100 * Z.of_N k1) scale (100 * Z.of_N k2) scale Hs Hs ltac:(nia)). nia.
Qed.

Lemma round2_mono (x y : f64) :
  fleb x y = true -> fleb (round2 x) (round2 y) = true.
Proof.
  destruct x as [|s1|s1 k1], y as [|s2|s2 k2];
    try (intros H; discriminate H); try (intros H; exact H).
  - (* -inf <= a rounded finite *)
    intros H. cbn in H. subst s1. unfold round2, pack. destruct (_ <? top); reflexivity.
  - intros H. cbn in H. apply negb_true_iff in H. subst s2. unfold round2, pack.
    destruct (_ <? top), s1; reflexivity.
  - intros H. apply Z.leb_le in H. apply round2_fin_mono. exact H.
Qed.

(** Multiplying by a positive finite factor keeps the order. *)
Lemma fmul_mono_l (x y : f64) (c : N) :
  (0 < c)%N -> fleb x y = true ->
  fleb (fmul x (Fin false c)) (fmul y (Fin false c)) = true.
Proof.
  intros Hc.
  destruct x as [|s1|s1 k1], y as [|s2|s2 k2];
    try (intros H; discriminate H); unfold fmul;
    destruct (N.eqb_spec c 0) as [?|_]; try lia; rewrite ?xorb_false_r;
    try (intros H; exact H).
  - intros H. cbn in H. subst s1. unfold pack. destruct (_ <? top); reflexivity.
  - intros H. cbn in H. apply negb_true_iff in H. subst s2. unfold pack.
    destruct (_ <? top), s1; reflexivity.
  - intros H. apply Z.leb_le in H. pose proof scale_pos.
    apply signed_round_mono; try nia.
    rewrite !smag_mul_out. apply smag_mul; [lia|]. apply smag_mul; [lia|].
    exact H.
Qed.

Lemma fmul_comm (x y : f64) : fmul x y = fmul y x.
Proof.
  destruct x as [|s1|s1 k1], y as [|s2|s2 k2]; simpl; try reflexivity;
    rewrite (xorb_comm s1 s2); try reflexivity.
  rewrite (Z.mul_comm (Z.of_N k1)). reflexivity.
Qed.

Lemma fmul_mono_r (x y : f64) (c : N) :
  (0 < c)%N -> fleb x y = true ->
  fleb (fmul (Fin false c) x) (fmul (Fin false c) y) = true.
Proof.
  intros. rewrite !(fmul_comm (Fin false c)). apply fmul_mono_l; assumption.
Qed.

(** Adding the same float to both sides keeps the order, as long as
    neither sum is [inf - inf]. *)
Lemma fadd_mono_r (x y z : f64) :
  fleb y z = true ->
  is_nan (fadd x y) = false -> is_nan (fadd x z) = false ->
  fleb (fadd x y) (fadd x z) = true.
Proof.
  destruct x as [|s0|s0 k0], y as [|s1|s1 k1], z as [|s2|s2 k2];
    try (intros H; discriminate H);
    try (intros _ H; discriminate H);
    try (intros _ _ H; discriminate H).
  - destruct s0, s1, s2; simpl; intros; (discriminate || reflexivity).
  - destruct s0, s1; simpl; intros; (discriminate || reflexivity).
  - destruct s0, s2; simpl; intros; (discriminate || reflexivity).
  - destruct s0; simpl; intros; reflexivity.
  - cbn. intros H _ _. exact H.
  - intros H _ N2. cbn in H. subst s1. apply fleb_inf_l. exact N2.
  - intros H N1 _. cbn in H. apply negb_true_iff in H. subst s2.
    apply fleb_inf_r. exact N1.
  - intros H _ _. apply Z.leb_le in H. unfold fadd.
    set (z1 := sval s0 k0 + sval s1 k1). set (z2 := sval s0 k0 + sval s2 k2).
    assert (Hz : z1 <= z2) by (unfold z1, z2; lia).
    assert (Z0 : forall s, Fin s 0 = pack s (rnd_mag 0 1)).
    { intros s. rewrite rnd_mag_zero by lia. reflexivity. }
    destruct (Z.eqb_spec z1 0) as [E1|E1], (Z.eqb_spec z2 0) as [E2|E2];
      rewrite ?Z0; apply signed_round_mono; try lia; unfold smag;
      repeat match goal with |- context [?a <? 0] => destruct (Z.ltb_spec a 0) end;
      repeat match goal with |- context [if ?b then _ else _] => destruct b end; lia.
Qed.

Lemma fadd_comm (x y : f64) : fadd x y = fadd y x.
Proof.
  destruct x as [|s1|s1 k1], y as [|s2|s2 k2]; simpl; try reflexivity.
  - destruct s1, s2; reflexivity.
  - rewrite (Z.add_comm (sval s2 k2)), (andb_comm s2). reflexivity.
Qed.


(** ** Strategy selection, charges and errors *)

Lemma Ok_inj {A : Type} (a b : A) : Ok a = Ok b -> a = b.
Proof.
  intros H.
  exact (f_equal (fun r => match r with Ok x => x | Raise _ => a end) H).
Qed.

(** *** The constants of the tiers *)

Lemma of_Z_0 : of_Z 0 = Fin false 0.
Proof. vm_compute. reflexivity. Qed.

Lemma of_Z_100 : of_Z 100 = Fin false (Z.to_N (100 * scale)).
Proof. vm_compute. reflexivity. Qed.

Lemma of_Z_500 : of_Z 500 = Fin false (Z.to_N (500 * scale)).
Proof. vm_compute. reflexivity. Qed.

Lemma fleb_fltb_false (x y : f64) : fleb x y = true -> fltb y x = false.
Proof. f64_cases. Qed.

Lemma fleb_100_500 : fleb (of_Z 100) (of_Z 500) = true.
Proof. vm_compute. reflexivity. Qed.

Lemma fleb_0_100 : fleb (of_Z 0) (of_Z 100) = true.
Proof. vm_compute. reflexivity. Qed.

Lemma result_mode_inj (s t : ShippingStrategy) :
  @Ok ShippingStrategy s = Ok t -> mode_name s = mode_name t.
Proof. intros H. apply Ok_inj in H. subst t. reflexivity. Qed.

Lemma get_strategy_init (P : Platform) (d : f64) :
  get_strategy P factory_init d
  = if fltb d (of_Z 0)
    then Raise (ValueError ("Distance cannot be negative: " ++ repr_float P d))
    else if fleb (of_Z 0) d && fltb d (of_Z 100) then Ok MiniVanStrategy
    else if fleb (of_Z 100) d && fltb d (of_Z 500) then Ok TruckStrategy
    else Ok AeroplaneStrategy.
Proof.
  unfold get_strategy. destruct (fltb d (of_Z 0)); [reflexivity|].
  change (find (fun s => is_applicable s d) (_strategies factory_init))
    with (if is_applicable MiniVanStrategy d then Some MiniVanStrategy
          else if is_applicable TruckStrategy d then Some TruckStrategy
          else if is_applicable AeroplaneStrategy d then Some AeroplaneStrategy
          else None).
  change (is_applicable MiniVanStrategy d) with (fleb (of_Z 0) d && fltb d (of_Z 100)).
  change (is_applicable TruckStrategy d) with (fleb (of_Z 100) d && fltb d (of_Z 500)).
  destruct (fleb (of_Z 0) d && fltb d (of_Z 100)); [reflexivity|].
  destruct (fleb (of_Z 100) d && fltb d (of_Z 500)); [reflexivity|].
  destruct (is_applicable AeroplaneStrategy d); reflexivity.
Qed.

(** Claim C2.  On the factory's three strategies, [get_strategy]
    raises [ValueError] for a negative distance; otherwise it returns
    the Mini Van exactly for [0 <= d < 100], the Truck exactly for
    [100 <= d < 500], and the Aeroplane for every [d >= 500]; 100
    itself goes to the Truck and 500 to the Aeroplane. *)
Theorem get_strategy_default_tiers (P : Platform) (d : f64) :
  (fltb d (of_Z 0) = true ->
     get_strategy P factory_init d
     = Raise (ValueError ("Distance cannot be negative: " ++ repr_float P d)))
  /\ (fltb d (of_Z 0) = false ->
        (get_strategy P factory_init d = Ok MiniVanStrategy
           <-> fleb (of_Z 0) d && fltb d (of_Z 100) = true)
        /\ (get_strategy P factory_init d = Ok TruckStrategy
           <-> fleb (of_Z 100) d && fltb d (of_Z 500) = true)
        /\ (fleb (of_Z 500) d = true ->
            get_strategy P factory_init d = Ok AeroplaneStrategy))
  /\ get_strategy P factory_init (of_Z 100) = Ok TruckStrategy
  /\ get_strategy P factory_init (of_Z 500) = Ok AeroplaneStrategy.
Proof.
  assert (NM : forall s t : ShippingStrategy,
             mode_name s <> mode_name t -> @Ok ShippingStrategy s = Ok t -> False).
  { intros s t Hn H. apply Hn. apply result_mode_inj. exact H. }
  split; [|split; [|split]].
  - rewrite get_strategy_init. intros ->. reflexivity.
  - rewrite get_strategy_init. intros ->.
    destruct (fleb (of_Z 0) d && fltb d (of_Z 100)) eqn:E1.
    + apply andb_true_iff in E1 as [_ E1].
      assert (N1 : fleb (of_Z 100) d = false).
      { destruct (fleb (of_Z 100) d) eqn:E; [|reflexivity].
        apply fleb_fltb_false in E. congruence. }
      assert (N5 : fleb (of_Z 500) d = false).
      { destruct (fleb (of_Z 500) d) eqn:E; [|reflexivity].
        pose proof (fleb_trans _ _ _ fleb_100_500 E). congruence. }
      rewrite N1. cbn [andb].
      split; [|split].
      * split; intros _; exact eq_refl.
      * split; intros H; exfalso; [|discriminate H].
        eapply NM; [|exact H]; discriminate.
      * intros H. congruence.
    + destruct (fleb (of_Z 100) d && fltb d (of_Z 500)) eqn:E2.
      * apply andb_true_iff in E2 as [_ E2].
        split; [|split].
        -- split; intros H; exfalso; [|discriminate H].
           eapply NM; [|exact H]; discriminate.
        -- split; intros _; exact eq_refl.
        -- intros H. apply fleb_fltb_false in H. congruence.
      * split; [|split].
        -- split; intros H; exfalso; [|discriminate H].
           eapply NM; [|exact H]; discriminate.
        -- split; intros H; exfalso; [|discriminate H].
           eapply NM; [|exact H]; discriminate.
        -- intros _. exact eq_refl.
  - vm_compute. reflexivity.
  - vm_compute. reflexivity.
Qed.

(** *** The charge computed from a warehouse *)

Lemma charge_for_distance_ok (P : Platform) (f : ShippingStrategyFactory)
  (sp : DeliverySpeed) (dist weight : f64) (r : ShippingChargeResult) :
  charge_for_distance P f sp dist weight = Ok r ->
  exists strategy,
    get_strategy P f dist = Ok strategy
    /\ r = {| shipping_charge :=
                round2 (fadd (round2 (fmul (fmul dist (rate_per_km_per_kg strategy)) weight))
                             (total (_calculate_delivery_cost sp weight)));
              distance_km := dist;
              transport_mode := mode_name strategy;
              transport_cost :=
                round2 (fmul (fmul dist (rate_per_km_per_kg strategy)) weight);
              delivery_cost := _calculate_delivery_cost sp weight;
              r_weight_kg := weight |}.
Proof.
  unfold charge_for_distance, bind.
  destruct (get_strategy P f dist) as [strategy|e] eqn:Eg; [|intros H; discriminate H].
  unfold calculate_cost. cbn [cr_transport_cost cr_transport_mode].
  intros H. apply Ok_inj in H. subst r. exists strategy. split; exact eq_refl.
Qed.

Lemma calculate_from_warehouse_ok (P : Platform) (svc : ShippingChargeService)
  (wid cid pid : Z) (delivery_speed : string) (r : ShippingChargeResult) :
  calculate_from_warehouse P svc wid cid pid delivery_speed = Ok r ->
  exists sp wh cu pr dist,
    _validate_delivery_speed delivery_speed = Ok sp
    /\ get_by_id (_warehouse_repo svc) wid = Some wh
    /\ get_by_id (_customer_repo svc) cid = Some cu
    /\ get_by_id (_product_repo svc) pid = Some pr
    /\ calculate P (w_location wh) (c_location cu) = Ok dist
    /\ charge_for_distance P (_strategy_factory svc) sp dist (weight_kg pr) = Ok r.
Proof.
  unfold calculate_from_warehouse, bind.
  destruct (_validate_delivery_speed delivery_speed) as [sp|e] eqn:Es;
    [|intros H; discriminate H].
  destruct (get_by_id (_warehouse_repo svc) wid) as [wh|] eqn:Ew;
    [|intros H; discriminate H].
  destruct (get_by_id (_customer_repo svc) cid) as [cu|] eqn:Ec;
    [|intros H; discriminate H].
  destruct (get_by_id (_product_repo svc) pid) as [pr|] eqn:Ep;
    [|intros H; discriminate H].
  destruct (calculate P (w_location wh) (c_location cu)) as [dist|e] eqn:Ed;
    [|intros H; discriminate H].
  intros H. exists sp, wh, cu, pr, dist.
  split; [exact eq_refl|]. split; [exact eq_refl|]. split; [exact eq_refl|].
  split; [exact eq_refl|]. split; [exact Ed|]. exact H.
Qed.

(** Claim C1.  Whenever [calculate_from_warehouse] returns, the
    charge is [round2 (transport cost + delivery total)], where the
    transport cost is the rounded product [round2 (distance * rate *
    weight)] of the strategy selected for the distance and the
    delivery total is the rounded total of the delivery cost; the
    distance, mode, transport cost, delivery cost and weight of the
    result are these same values. *)
Theorem shipping_charge_is_rounded_sum (P : Platform) (svc : ShippingChargeService)
  (wid cid pid : Z) (delivery_speed : string) (r : ShippingChargeResult) :
  calculate_from_warehouse P svc wid cid pid delivery_speed = Ok r ->
  exists sp wh cu pr strategy,
    _validate_delivery_speed delivery_speed = Ok sp
    /\ get_by_id (_warehouse_repo svc) wid = Some wh
    /\ get_by_id (_customer_repo svc) cid = Some cu
    /\ get_by_id (_product_repo svc) pid = Some pr
    /\ calculate P (w_location wh) (c_location cu) = Ok (distance_km r)
    /\ get_strategy P (_strategy_factory svc) (distance_km r) = Ok strategy
    /\ calculate_cost strategy (distance_km r) (weight_kg pr)
       = {| cr_transport_cost := transport_cost r;
            cr_distance_km := distance_km r;
            cr_weight_kg := r_weight_kg r;
            cr_transport_mode := transport_mode r;
            cr_rate_per_km_per_kg := rate_per_km_per_kg strategy |}
    /\ transport_cost r
       = round2 (fmul (fmul (distance_km r) (rate_per_km_per_kg strategy)) (weight_kg pr))
    /\ delivery_cost r = _calculate_delivery_cost sp (weight_kg pr)
    /\ shipping_charge r = round2 (fadd (transport_cost r) (total (delivery_cost r)))
    /\ transport_mode r = mode_name strategy
    /\ r_weight_kg r = weight_kg pr.
Proof.
  intros H.
  apply calculate_from_warehouse_ok in H as (sp & wh & cu & pr & dist & Hs & Hw & Hc & Hp & Hd & H).
  apply charge_for_distance_ok in H as (strategy & Hg & ->).
  exists sp, wh, cu, pr, strategy. cbn [distance_km transport_cost delivery_cost
    shipping_charge transport_mode r_weight_kg].
  unfold calculate_cost.
  repeat split; assumption || exact eq_refl.
Qed.


Lemma shipping_charge_is_rounded_sum_witness :
  exists r,
    calculate_from_warehouse small_angle seed_service 1 1 1 "standard" = Ok r
    /\ shipping_charge r = round2 (fadd (transport_cost r) (total (delivery_cost r))).
Proof.
  assert (E : exists r,
             calculate_from_warehouse small_angle seed_service 1 1 1 "standard" = Ok r).
  { vm_compute. eexists. reflexivity. }
  destruct E as [r E]. exists r. split; [exact E|].
  destruct (shipping_charge_is_rounded_sum _ _ _ _ _ _ _ E)
    as (sp & wh & cu & pr & strategy & _ & _ & _ & _ & _ & _ & _ & _ & _ & Hsum & _ & _).
  exact Hsum.
Defined.

(** *** Delivery cost *)

(** Claim C3, as the code computes it.  The base charge is 10.0; the
    extra charge is the rounded surcharge, [round2 (1.2 * w)] for
    express and 0 for standard; and the total is [round2] of the base
    plus the surcharge before it was rounded, which for standard is
    10.0. *)
Theorem delivery_cost_rounds_raw_sum (sp : DeliverySpeed) (w : f64) :
  let raw_extra :=
    match sp with
    | EXPRESS => fmul EXPRESS_EXTRA_PER_KG w
    | STANDARD => of_Z 0
    end in
  base_charge (_calculate_delivery_cost sp w) = BASE_COURIER_CHARGE
  /\ extra_charge (_calculate_delivery_cost sp w) = round2 raw_extra
  /\ total (_calculate_delivery_cost sp w) = round2 (fadd BASE_COURIER_CHARGE raw_extra)
  /\ (sp = STANDARD ->
      extra_charge (_calculate_delivery_cost sp w) = Fin false 0
      /\ total (_calculate_delivery_cost sp w) = BASE_COURIER_CHARGE).
Proof.
  cbv zeta. unfold _calculate_delivery_cost. cbn [base_charge extra_charge total].
  split; [exact eq_refl|]. split; [exact eq_refl|]. split; [exact eq_refl|].
  intros ->. split; vm_compute; reflexivity.
Qed.

(** Claim C3 fails as stated: for an express delivery of 0.0125 kg
    the extra charge is 0.01 and the total is 10.02, while rounding
    the base plus the rounded extra gives 10.01. *)
Lemma delivery_total_differs_from_rounded_parts :
  let w := dec4 125 in
  fltb (of_Z 0) w = true
  /\ extra_charge (_calculate_delivery_cost EXPRESS w) = of_ratio false 1 100
  /\ total (_calculate_delivery_cost EXPRESS w) = of_ratio false 1002 100
  /\ round2 (fadd BASE_COURIER_CHARGE (round2 (fmul EXPRESS_EXTRA_PER_KG w)))
     = of_ratio false 1001 100
  /\ feqb (total (_calculate_delivery_cost EXPRESS w))
          (round2 (fadd BASE_COURIER_CHARGE (round2 (fmul EXPRESS_EXTRA_PER_KG w))))
     = false.
Proof.
  vm_compute. repeat split; reflexivity.
Qed.

(** *** Delivery speed and lookups *)

Lemma validate_speed_ok (s : string) (sp : DeliverySpeed) :
  _validate_delivery_speed s = Ok sp <-> lower s = speed_value sp.
Proof.
  unfold _validate_delivery_speed, DeliverySpeed_of_value.
  destruct (String.eqb_spec (lower s) "standard") as [E1|N1].
  - rewrite E1. destruct sp; split; intros H; try exact eq_refl; discriminate H.
  - destruct (String.eqb_spec (lower s) "express") as [E2|N2].
    + rewrite E2. destruct sp; split; intros H; try exact eq_refl; discriminate H.
    + split; intros H; [discriminate H|].
      destruct sp; cbn in H; contradiction.
Qed.

Lemma validate_speed_error (s : string) :
  lower s <> "standard"%string -> lower s <> "express"%string ->
  _validate_delivery_speed s
  = Raise (ValidationError
             ("Invalid delivery speed '" ++ s
              ++ "'. Supported speeds: ['standard', 'express']")).
Proof.
  intros N1 N2. unfold _validate_delivery_speed, DeliverySpeed_of_value.
  destruct (String.eqb_spec (lower s) "standard"); [contradiction|].
  destruct (String.eqb_spec (lower s) "express"); [contradiction|].
  reflexivity.
Qed.

(** [lower] against the spelling of a word, letter by letter. *)
Lemma lower_ascii_letter (c l : ascii) :
  ~ (65 <= nat_of_ascii l <= 90)%nat ->
  lower_ascii c = l <-> letter_or_capital c l.
Proof.
  intros Hl. unfold lower_ascii, letter_or_capital.
  pose proof (nat_ascii_bounded c) as Hb.
  destruct ((65 <=? nat_of_ascii c)%nat && (nat_of_ascii c <=? 90)%nat) eqn:E.
  - apply andb_true_iff in E as [E1 E2].
    apply Nat.leb_le in E1, E2. split.
    + intros <-. right. rewrite nat_ascii_embedding by lia. lia.
    + intros [->|[_ H]]; [exfalso; apply Hl; lia|].
      rewrite H. apply ascii_nat_embedding.
  - split; [intros ->; left; reflexivity|].
    intros [->|[H1 H2]]; [reflexivity|]. exfalso.
    apply andb_false_iff in E as [E|E]; apply Nat.leb_gt in E; lia.
Qed.

Lemma lower_spells (s w : string) :
  no_capital w -> lower s = w <-> spells s w.
Proof.
  unfold no_capital, spells. revert w.
  induction s as [|c s IH]; intros [|l w] Hw; cbn [lower list_ascii_of_string].
  - split; [constructor|reflexivity].
  - split; [intros H; discriminate H|intros H; inversion H].
  - split; [intros H; discriminate H|intros H; inversion H].
  - cbn [list_ascii_of_string] in Hw. inversion Hw as [|? ? Hl Hw']; subst. split.
    + intros H. injection H as H1 H2. constructor.
      * apply lower_ascii_letter; assumption.
      * apply IH; assumption.
    + intros H. inversion H as [|? ? ? ? H1 H2]; subst. f_equal.
      * apply lower_ascii_letter; assumption.
      * apply IH; assumption.
Qed.

Lemma speed_values_no_capital (sp : DeliverySpeed) : no_capital (speed_value sp).
Proof.
  destruct sp; unfold no_capital; cbn [speed_value list_ascii_of_string];
    repeat constructor; vm_compute; lia.
Qed.

(** Claim C5.  The delivery speed is parsed without regard to case:
    a string is accepted as a speed exactly when it spells "standard"
    or "express" letter by letter, each letter small or capital; any
    other string makes [calculate_from_warehouse] raise
    [ValidationError] whatever the repositories hold; and with a
    valid speed, the first missing one of warehouse, customer and
    product raises a [NotFoundError] whose message names that kind of
    entity and the id. *)
Theorem speed_parsing_and_missing_entities (P : Platform) (svc : ShippingChargeService)
  (wid cid pid : Z) (s : string) :
  (forall sp, _validate_delivery_speed s = Ok sp <-> spells s (speed_value sp))
  /\ (~ spells s "standard" -> ~ spells s "express" ->
      calculate_from_warehouse P svc wid cid pid s
      = Raise (ValidationError
                 ("Invalid delivery speed '" ++ s
                  ++ "'. Supported speeds: ['standard', 'express']")))
  /\ (forall sp, spells s (speed_value sp) ->
      (get_by_id (_warehouse_repo svc) wid = None ->
       calculate_from_warehouse P svc wid cid pid s
       = Raise (NotFoundError ("Warehouse with ID " ++ str_int wid ++ " not found")))
      /\ (forall wh, get_by_id (_warehouse_repo svc) wid = Some wh ->
          get_by_id (_customer_repo svc) cid = None ->
          calculate_from_warehouse P svc wid cid pid s
          = Raise (NotFoundError ("Customer with ID " ++ str_int cid ++ " not found")))
      /\ (forall wh cu, get_by_id (_warehouse_repo svc) wid = Some wh ->
          get_by_id (_customer_repo svc) cid = Some cu ->
          get_by_id (_product_repo svc) pid = None ->
          calculate_from_warehouse P svc wid cid pid s
          = Raise (NotFoundError ("Product with ID " ++ str_int pid ++ " not found")))).
Proof.
  assert (A : forall sp, _validate_delivery_speed s = Ok sp <-> spells s (speed_value sp)).
  { intros sp. rewrite validate_speed_ok. apply lower_spells. apply speed_values_no_capital. }
  split; [exact A|]. split.
  - intros N1 N2. unfold calculate_from_warehouse.
    rewrite (validate_speed_error s); [reflexivity| |].
    + intros E. apply N1. apply (lower_spells s "standard" (speed_values_no_capital STANDARD)).
      exact E.
    + intros E. apply N2. apply (lower_spells s "express" (speed_values_no_capital EXPRESS)).
      exact E.
  - intros sp Hs. apply A in Hs. unfold calculate_from_warehouse. rewrite Hs. cbn [bind].
    split; [|split].
    + intros ->. reflexivity.
    + intros wh -> ->. reflexivity.
    + intros wh cu -> -> ->. reflexivity.
Qed.

Lemma speed_parsing_and_missing_entities_witness :
  _validate_delivery_speed "ExPRESS" = Ok EXPRESS
  /\ _validate_delivery_speed "Standard" = Ok STANDARD
  /\ calculate_from_warehouse small_angle seed_service 1 9 1 "STANDARD"
     = Raise (NotFoundError ("Customer with ID " ++ str_int 9 ++ " not found")).
Proof.
  assert (Sx : spells "ExPRESS" (speed_value EXPRESS)) by spell_out.
  assert (Ss : spells "Standard" (speed_value STANDARD)) by spell_out.
  assert (Su : spells "STANDARD" (speed_value STANDARD)) by spell_out.
  split; [|split].
  - apply (proj1 (speed_parsing_and_missing_entities small_angle seed_service 1 1 1
                    "ExPRESS")). exact Sx.
  - apply (proj1 (speed_parsing_and_missing_entities small_angle seed_service 1 1 1
                    "Standard")). exact Ss.
  - destruct (speed_parsing_and_missing_entities small_angle seed_service 1 9 1
                "STANDARD") as (_ & _ & H).
    destruct (H STANDARD Su) as (_ & Hc & _).
    apply (Hc mumbai_warehouse); reflexivity.
Defined.


(** ** Repositories and the nearest warehouse *)

(** *** The store *)

Section Store.
Context {T : Type} `{HasId T}.

Lemma dict_get_set_same (st : store T) (k : Z) (v : T) :
  dict_get (dict_set st k v) k = Some v.
Proof.
  induction st as [|[k' v'] st IH]; cbn.
  - rewrite Z.eqb_refl. reflexivity.
  - destruct (Z.eqb_spec k' k) as [->|N]; cbn.
    + rewrite Z.eqb_refl. reflexivity.
    + destruct (Z.eqb_spec k' k); [contradiction|]. exact IH.
Qed.

Lemma dict_get_set_other (st : store T) (k k' : Z) (v : T) :
  k <> k' -> dict_get (dict_set st k v) k' = dict_get st k'.
Proof.
  intros N. induction st as [|[k0 v0] st IH]; cbn.
  - destruct (Z.eqb_spec k k'); [contradiction|reflexivity].
  - destruct (Z.eqb_spec k0 k) as [->|N0]; cbn.
    + destruct (Z.eqb_spec k k'); [contradiction|reflexivity].
    + destruct (Z.eqb_spec k0 k'); [reflexivity|exact IH].
Qed.

Lemma dict_set_keys (st : store T) (k : Z) (v : T) (k' : Z) :
  In k' (map fst (dict_set st k v)) <-> k' = k \/ In k' (map fst st).
Proof.
  induction st as [|[k0 v0] st IH]; cbn.
  - intuition.
  - destruct (Z.eqb_spec k0 k) as [->|N0]; cbn; [intuition|].
    rewrite IH. intuition.
Qed.

Lemma keyed_empty : keyed (@repo_empty T).
Proof. split; constructor. Qed.

Lemma dict_set_keyed (st : store T) (k : Z) (v : T) :
  _get_id v = k -> keyed st -> keyed (dict_set st k v).
Proof.
  unfold keyed. intros Hk [HF HN].
  induction st as [|[k0 v0] st IH]; cbn.
  - split; repeat constructor; [exact Hk|intros []].
  - inversion HF as [|? ? H0 HF']; subst. inversion HN as [|? ? Hn HN']; subst.
    destruct (Z.eqb_spec k0 (_get_id v)) as [->|N0]; cbn.
    + split; constructor; assumption || reflexivity.
    + destruct (IH HF' HN') as [IF IN]. split; constructor; try assumption.
      intros Hin. apply dict_set_keys in Hin as [->|Hin]; [contradiction|].
      apply Hn. exact Hin.
Qed.

Lemma add_keyed (st : store T) (entity : T) : keyed st -> keyed (add st entity).
Proof. intros K. apply dict_set_keyed; [reflexivity|exact K]. Qed.

Lemma keyed_lookup (st : store T) (e : T) :
  keyed st -> In e (get_all st) -> get_by_id st (_get_id e) = Some e.
Proof.
  unfold keyed, get_all, get_by_id. intros [HF HN].
  induction st as [|[k0 v0] st IH]; cbn; [intros []|].
  inversion HF as [|? ? H0 HF']; subst. inversion HN as [|? ? Hn HN']; subst.
  cbn [snd fst] in H0.
  match goal with |- context [Z.eqb ?a ?b] => destruct (Z.eqb_spec a b) as [E|N] end.
  - intros [->|Hin]; [reflexivity|].
    exfalso. apply Hn. 
    apply in_map_iff in Hin as [[k1 v1] [E1 Hin]]. cbn [snd] in E1. subst v1.
    rewrite Forall_forall in HF'. specialize (HF' _ Hin). cbn [snd fst] in HF'.
    apply in_map_iff. exists (k1, e). split; [cbn [fst]; congruence|exact Hin].
  - intros [->|Hin]; [exfalso; apply N; symmetry; exact H0|].
    apply IH; assumption.
Qed.

Lemma get_by_id_in (st : store T) (k : Z) (e : T) :
  get_by_id st k = Some e -> In e (get_all st).
Proof.
  unfold get_by_id, get_all.
  induction st as [|[k0 v0] st IH]; cbn; [discriminate|].
  destruct (Z.eqb_spec k0 k).
  - intros E. left. congruence.
  - intros E. right. apply IH. exact E.
Qed.

End Store.

(** *** The nearest warehouse *)

Section Nearest.
Variable P : Platform.
Variable origin : Location.




(** Whatever the loop returns as nearest was its starting value or a
    warehouse of the list. *)
Lemma nearest_loop_in (ws : list Warehouse) :
  forall n0 m0 w m,
  nearest_loop P origin ws n0 m0 = Ok (Some w, m) -> n0 = Some w \/ In w ws.
Proof.
  induction ws as [|w0 rest IH]; intros n0 m0 w m; cbn [nearest_loop].
  - intros E. apply Ok_inj in E. left. congruence.
  - destruct (calculate P origin (w_location w0)) as [d|e]; cbn [bind];
      [|intros E; discriminate E].
    destruct (fltb d m0); intros E; apply IH in E as [E|E].
    + right. left. congruence.
    + right. right. exact E.
    + left. exact E.
    + right. right. exact E.
Qed.

End Nearest.







(** *** Two points nearly opposite each other *)

(** Claim C4 fails on the code.  For a seller at (-12, -54.75) and a
    single warehouse at (12, 125.25), both of them valid locations,
    the Haversine term [a] computed from the C library's values is
    [1 + 2^-52]; [math.sqrt (1 - a)] is then asked for the root of a
    negative number, and [find_nearest_warehouse] raises [ValueError]
    where it should return the warehouse and its distance. *)
Theorem find_nearest_warehouse_raises_between_far_points :
  valid_location (s_location far_seller) = true
  /\ valid_location (w_location far_warehouse) = true
  /\ get_by_id (ws_seller_repo far_service) 7 = Some far_seller
  /\ get_all (ws_warehouse_repo far_service) = [far_warehouse]
  /\ fadd sin_half_dlat_squared (fmul (fmul cos_lat cos_lat) (of_Z 1))
     = of_ratio false (2 ^ 52 + 1) (2 ^ 52)
  /\ calculate libm_at_far_pair (s_location far_seller) (w_location far_warehouse)
     = Raise (ValueError "math domain error")
  /\ find_nearest_warehouse libm_at_far_pair far_service 7
     = Raise (ValueError "math domain error").
Proof. vm_compute. repeat split; reflexivity. Qed.

(** *** The total from a seller *)

Lemma find_nearest_warehouse_in (P : Platform) (svc : WarehouseService) (sid : Z)
  (w : Warehouse) (d : f64) :
  find_nearest_warehouse P svc sid = Ok (Some w, d) ->
  In w (get_all (ws_warehouse_repo svc)).
Proof.
  unfold find_nearest_warehouse.
  destruct (get_by_id (ws_seller_repo svc) sid) as [s|]; [|intros H; discriminate H].
  destruct (get_all (ws_warehouse_repo svc)) as [|w0 rest]; [intros H; discriminate H|].
  intros H. apply nearest_loop_in in H as [H|H]; [discriminate H|exact H].
Qed.

Lemma calculate_total_ok (P : Platform) (svc : ShippingChargeService)
  (sid cid pid : Z) (s : string) (r : TotalShippingResult) :
  calculate_total P svc sid cid pid s = Ok r ->
  exists d,
    find_nearest_warehouse P (_warehouse_service svc) sid = Ok (Some (nearest_warehouse r), d)
    /\ calculate_from_warehouse P svc (warehouse_id (nearest_warehouse r)) cid pid s
       = Ok (breakdown r)
    /\ t_shipping_charge r = shipping_charge (breakdown r)
    /\ t_distance_km r = distance_km (breakdown r).
Proof.
  unfold calculate_total, bind.
  destruct (get_by_id (_product_repo svc) pid) as [pr|]; [|intros H; discriminate H].
  destruct (find_nearest_warehouse P (_warehouse_service svc) sid) as [[[nw|] d]|e] eqn:En;
    try (intros H; discriminate H).
  destruct (calculate_from_warehouse P svc (warehouse_id nw) cid pid s) as [sr|e] eqn:Ec;
    [|intros H; discriminate H].
  intros H. apply Ok_inj in H. subst r. cbn [nearest_warehouse breakdown
    t_shipping_charge t_distance_km].
  exists d. split; [exact eq_refl|]. split; [exact Ec|]. split; exact eq_refl.
Qed.

(** Claim C10.  In what [calculate_total] returns, the distance (of
    the result and of its breakdown) is the one from the selected
    warehouse to the customer; the distance from the seller that
    [find_nearest_warehouse] returned with the warehouse has no part
    in it: any warehouse service selecting the same warehouse, at
    whatever distance, gives the same result. *)
Theorem total_distance_is_warehouse_to_customer (P : Platform) (repos : Repositories)
  (sid cid pid : Z) (s : string) (r : TotalShippingResult) :
  keyed (warehouse repos) ->
  calculate_total P (make_shipping_charge_service repos) sid cid pid s = Ok r ->
  exists seller_distance cu,
    find_nearest_warehouse P (make_warehouse_service repos) sid
    = Ok (Some (nearest_warehouse r), seller_distance)
    /\ get_by_id (customer repos) cid = Some cu
    /\ calculate P (w_location (nearest_warehouse r)) (c_location cu)
       = Ok (t_distance_km r)
    /\ distance_km (breakdown r) = t_distance_km r
    /\ t_shipping_charge r = shipping_charge (breakdown r)
    /\ (forall (other : WarehouseService) (d' : f64),
        find_nearest_warehouse P other sid = Ok (Some (nearest_warehouse r), d') ->
        calculate_total P
          {| _warehouse_repo := warehouse repos;
             _customer_repo := customer repos;
             _product_repo := product repos;
             _warehouse_service := other;
             _strategy_factory := factory_init |} sid cid pid s = Ok r).
Proof.
  intros K H.
  pose proof H as H0.
  apply calculate_total_ok in H as (d & Hn & Hc & Hs & Hd).
  cbn [make_shipping_charge_service _warehouse_service] in Hn.
  pose proof (find_nearest_warehouse_in _ _ _ _ _ Hn) as Hin.
  cbn [make_warehouse_service ws_warehouse_repo] in Hin.
  pose proof (keyed_lookup _ _ K Hin) as Hlook.
  pose proof Hc as Hc0.
  apply calculate_from_warehouse_ok in Hc
    as (sp & wh & cu & pr & dist & Hsp & Hw & Hcu & Hp & Hdist & Hch).
  cbn [make_shipping_charge_service _warehouse_repo _customer_repo] in Hw, Hcu.
  change (_get_id (nearest_warehouse r)) with (warehouse_id (nearest_warehouse r)) in Hlook.
  rewrite Hlook in Hw. injection Hw as <-.
  apply charge_for_distance_ok in Hch as (strategy & _ & Hr).
  assert (Hdk : distance_km (breakdown r) = dist) by (rewrite Hr; exact eq_refl).
  exists d, cu. split; [exact Hn|]. split; [exact Hcu|].
  split; [rewrite Hd, Hdk; exact Hdist|]. split; [symmetry; exact Hd|].
  split; [exact Hs|].
  intros other d' Hother.
  unfold calculate_total in H0 |- *.
  cbn [make_shipping_charge_service _product_repo _warehouse_service] in H0 |- *.
  rewrite Hother. rewrite Hn in H0. exact H0.
Qed.

Lemma seed_keyed : keyed (warehouse seed_repositories).
Proof. apply add_keyed, add_keyed, keyed_empty. Qed.

Lemma total_distance_is_warehouse_to_customer_witness :
  exists r cu,
    calculate_total small_angle seed_service 1 1 1 "express" = Ok r
    /\ get_by_id (customer seed_repositories) 1 = Some cu
    /\ calculate small_angle (w_location (nearest_warehouse r)) (c_location cu)
       = Ok (t_distance_km r).
Proof.
  assert (E : exists r, calculate_total small_angle seed_service 1 1 1 "express" = Ok r).
  { vm_compute. eexists. reflexivity. }
  destruct E as [r E].
  destruct (total_distance_is_warehouse_to_customer _ _ _ _ _ _ _ seed_keyed E)
    as (d & cu & _ & Hcu & Hdist & _).
  exists r, cu. split; [exact E|]. split; [exact Hcu|exact Hdist].
Defined.



(** *** Sorting the strategies *)

Section Sorting.
Context {A : Type} (key : A -> f64).

Lemma sort_insert_in (x y : A) (l : list A) :
  In y (sort_insert key x l) <-> y = x \/ In y l.
Proof.
  induction l as [|z l IH]; cbn.
  - intuition.
  - destruct (fltb (key x) (key z)); cbn; [intuition|]. rewrite IH. intuition.
Qed.


Lemma fold_insert_in (l acc : list A) (y : A) :
  In y (fold_left (fun acc x => sort_insert key x acc) l acc) <-> In y acc \/ In y l.
Proof.
  revert acc. induction l as [|x l IH]; intros acc; cbn.
  - intuition.
  - rewrite IH, sort_insert_in. intuition.
Qed.

Lemma list_sort_in (l : list A) (y : A) : In y (list_sort key l) <-> In y l.
Proof.
  unfold list_sort, stable_sort. destruct (one_run key l); [reflexivity|].
  rewrite fold_insert_in. cbn. intuition.
Qed.






End Sorting.

Lemma factory_init_ascending : ascending (_strategies factory_init).
Proof.
  unfold ascending. cbn [_strategies factory_init].
  repeat constructor; vm_compute; reflexivity.
Qed.


Lemma register_strategy_in (f : ShippingStrategyFactory) (s s' : ShippingStrategy) :
  In s' (_strategies (register_strategy f s)) <-> In s' (_strategies f) \/ s' = s.
Proof.
  unfold register_strategy. cbn [_strategies]. rewrite list_sort_in, in_app_iff. cbn.
  intuition.
Qed.










(** *** A nan key *)

Lemma strongly_sorted_later {A : Type} (R : A -> A -> Prop) (l1 l2 : list A) (a b : A) :
  StronglySorted R (l1 ++ a :: l2) -> In b l2 -> R a b.
Proof.
  induction l1 as [|c l1 IH]; cbn; intros Hs Hin.
  - inversion Hs as [|? ? _ Hall]; subst. rewrite Forall_forall in Hall.
    apply Hall. exact Hin.
  - inversion Hs; subst. apply IH; assumption.
Qed.

(** Claim C9 fails on the code.  On a new factory, registering a
    strategy whose [min_distance] is nan and then one that starts at
    50 km leaves the list in the order of registration, with the keys
    0, 100, 500, nan, 50: the sort sees a single run, since neither nan
    nor 50 compares below the element before it.  The list is not
    ascending, and for the distance infinity, to which no strategy
    applies, the fallback is the 50 km strategy, while the Aeroplane
    of the same list starts at 500 km. *)
Theorem registration_with_nan_key_is_not_sorted :
  let f := fold_left register_strategy [drone; courier] factory_init in
  _strategies f = [MiniVanStrategy; TruckStrategy; AeroplaneStrategy; drone; courier]
  /\ ~ ascending (_strategies f)
  /\ fltb (Inf false) (of_Z 0) = false
  /\ find (fun s => is_applicable s (Inf false)) (_strategies f) = None
  /\ get_strategy small_angle f (Inf false) = Ok courier
  /\ In AeroplaneStrategy (_strategies f)
  /\ fltb (min_distance courier) (min_distance AeroplaneStrategy) = true.
Proof.
  intros f.
  assert (E : _strategies f
              = [MiniVanStrategy; TruckStrategy; AeroplaneStrategy; drone; courier]).
  { vm_compute. reflexivity. }
  rewrite E. split; [reflexivity|]. split.
  - intros H.
    pose proof (strongly_sorted_later (key_le min_distance)
                  [MiniVanStrategy; TruckStrategy] [drone; courier]
                  AeroplaneStrategy courier H (or_intror (or_introl eq_refl))) as Hle.
    unfold key_le in Hle.
    assert (N : fleb (min_distance AeroplaneStrategy) (min_distance courier) = false).
    { vm_compute. reflexivity. }
    rewrite N in Hle. discriminate Hle.
  - split; [vm_compute; reflexivity|]. split; [vm_compute; reflexivity|].
    split; [unfold get_strategy; rewrite E; vm_compute; reflexivity|].
    split; [right; right; left; reflexivity|vm_compute; reflexivity].
Qed.



(** *** Order of the charges *)

Lemma positive_finite (w : f64) :
  fltb (of_Z 0) w = true -> is_finite w = true ->
  exists k, w = Fin false k /\ (0 < k)%N.
Proof.
  rewrite of_Z_0. destruct w as [|s|s k]; try discriminate. cbn. unfold sval.
  intros H _. apply Z.ltb_lt in H. destruct s; [lia|].
  exists k. split; [reflexivity|lia].
Qed.

Lemma default_rate_positive (s : ShippingStrategy) :
  In s (_strategies factory_init) ->
  exists c, rate_per_km_per_kg s = Fin false c /\ (0 < c)%N.
Proof.
  intros [<-|[<-|[<-|[]]]]; vm_compute; eexists; split; reflexivity.
Qed.

Lemma express_rate_positive :
  exists c, EXPRESS_EXTRA_PER_KG = Fin false c /\ (0 < c)%N.
Proof. vm_compute. eexists. split; reflexivity. Qed.

Lemma base_charge_finite :
  exists b, BASE_COURIER_CHARGE = Fin false b.
Proof. vm_compute. eexists. reflexivity. Qed.

Lemma fmul_zero_l (c : N) : fmul (Fin false 0) (Fin false c) = Fin false 0.
Proof.
  unfold fmul. cbn [xorb]. change (Z.of_N 0) with 0. rewrite Z.mul_0_l.
  rewrite rnd_mag_zero by exact scale_pos. reflexivity.
Qed.

Lemma round2_zero : round2 (Fin false 0) = Fin false 0.
Proof. vm_compute. reflexivity. Qed.

(** The transport cost never decreases with the distance. *)
Lemma calculate_cost_mono (s : ShippingStrategy) (c k : N) (d1 d2 : f64) :
  rate_per_km_per_kg s = Fin false c -> (0 < c)%N -> (0 < k)%N ->
  fleb d1 d2 = true ->
  fleb (cr_transport_cost (calculate_cost s d1 (Fin false k)))
       (cr_transport_cost (calculate_cost s d2 (Fin false k))) = true.
Proof.
  intros Hr Hc Hk H. unfold calculate_cost. cbn [cr_transport_cost]. rewrite Hr.
  apply round2_mono. apply fmul_mono_l; [exact Hk|].
  apply fmul_mono_l; [exact Hc|exact H].
Qed.

(** Claim C7, as the code behaves.  For a finite positive weight
    and two distances [d1 < d2] of the same tier, the transport cost
    at [d2] is at least the cost at [d1]. *)
Theorem transport_cost_nondecreasing (s : ShippingStrategy) (w d1 d2 : f64) :
  In s (_strategies factory_init) ->
  fltb (of_Z 0) w = true -> is_finite w = true ->
  is_applicable s d1 = true -> is_applicable s d2 = true ->
  fltb d1 d2 = true ->
  fleb (cr_transport_cost (calculate_cost s d1 w))
       (cr_transport_cost (calculate_cost s d2 w)) = true.
Proof.
  intros Hs Hw Hf _ _ Hd.
  destruct (positive_finite w Hw Hf) as (k & -> & Hk).
  destruct (default_rate_positive s Hs) as (c & Hr & Hc).
  apply (calculate_cost_mono s c k d1 d2 Hr Hc Hk). apply fltb_fleb. exact Hd.
Qed.

Lemma transport_cost_nondecreasing_witness :
  fleb (cr_transport_cost (calculate_cost TruckStrategy (of_Z 200) (of_Z 5)))
       (cr_transport_cost (calculate_cost TruckStrategy (of_Z 300) (of_Z 5))) = true.
Proof.
  apply transport_cost_nondecreasing.
  - right. left. reflexivity.
  - vm_compute. reflexivity.
  - vm_compute. reflexivity.
  - vm_compute. reflexivity.
  - vm_compute. reflexivity.
  - vm_compute. reflexivity.
Defined.

(** Claim C7 fails as stated: at 0.1 kg the Mini Van costs 3.0 both
    for 10.00 km and for 10.01 km. *)
Lemma transport_cost_not_strictly_increasing :
  let w := dec4 1000 in
  let d1 := dec4 100000 in
  let d2 := dec4 100100 in
  fltb (of_Z 0) w = true
  /\ fltb d1 d2 = true
  /\ is_applicable MiniVanStrategy d1 = true
  /\ is_applicable MiniVanStrategy d2 = true
  /\ cr_transport_cost (calculate_cost MiniVanStrategy d1 w) = of_Z 3
  /\ cr_transport_cost (calculate_cost MiniVanStrategy d2 w) = of_Z 3
  /\ fltb (cr_transport_cost (calculate_cost MiniVanStrategy d1 w))
          (cr_transport_cost (calculate_cost MiniVanStrategy d2 w)) = false.
Proof. vm_compute. repeat split; reflexivity. Qed.

(** *** Express against standard *)

Lemma nonneg_cases (x : f64) :
  fleb (Fin false 0) x = true ->
  x = Inf false \/ exists s k, x = Fin s k /\ 0 <= sval s k.
Proof.
  destruct x as [|s|s k]; cbn; try discriminate.
  - intros H. apply negb_true_iff in H. subst s. left. reflexivity.
  - intros H. apply Z.leb_le in H. right. exists s, k. split; [reflexivity|exact H].
Qed.

Lemma fadd_fin_not_nan (s1 s2 : bool) (k1 k2 : N) :
  is_nan (fadd (Fin s1 k1) (Fin s2 k2)) = false.
Proof. unfold fadd. destruct (_ =? 0); [reflexivity|apply pack_not_nan]. Qed.

Lemma fadd_nonneg_not_nan (x y : f64) :
  fleb (Fin false 0) x = true -> fleb (Fin false 0) y = true ->
  is_nan (fadd x y) = false.
Proof.
  intros Hx Hy.
  destruct (nonneg_cases x Hx) as [->|(s1 & k1 & -> & H1)],
           (nonneg_cases y Hy) as [->|(s2 & k2 & -> & H2)]; try reflexivity.
  apply fadd_fin_not_nan.
Qed.

Lemma get_strategy_init_member (P : Platform) (d : f64) (s : ShippingStrategy) :
  get_strategy P factory_init d = Ok s -> In s (_strategies factory_init).
Proof.
  rewrite get_strategy_init.
  destruct (fltb d (of_Z 0)); [intros H; discriminate H|].
  destruct (fleb (of_Z 0) d && fltb d (of_Z 100));
    [intros H; apply Ok_inj in H; subst s; left; reflexivity|].
  destruct (fleb (of_Z 100) d && fltb d (of_Z 500));
    intros H; apply Ok_inj in H; subst s; cbn; auto.
Qed.

(** A distance that is not negative, at a positive rate and weight,
    costs a transport that is not negative. *)
Lemma transport_cost_nonneg (s : ShippingStrategy) (c k : N) (d : f64) :
  rate_per_km_per_kg s = Fin false c -> (0 < c)%N -> (0 < k)%N ->
  fleb (Fin false 0) d = true ->
  fleb (Fin false 0) (cr_transport_cost (calculate_cost s d (Fin false k))) = true.
Proof.
  intros Hr Hc Hk Hd.
  pose proof (calculate_cost_mono s c k (Fin false 0) d Hr Hc Hk Hd) as H.
  unfold calculate_cost in H |- *. cbn [cr_transport_cost] in H |- *.
  rewrite Hr in H |- *. rewrite !fmul_zero_l, round2_zero in H. exact H.
Qed.

Lemma standard_total : total (_calculate_delivery_cost STANDARD (Fin false 0)) = of_Z 10.
Proof. vm_compute. reflexivity. Qed.

(** The express delivery total is at least the standard one. *)
Lemma delivery_total_express_ge (k : N) :
  (0 < k)%N ->
  fleb (total (_calculate_delivery_cost STANDARD (Fin false k)))
       (total (_calculate_delivery_cost EXPRESS (Fin false k))) = true.
Proof.
  intros Hk. unfold _calculate_delivery_cost. cbn [total].
  destruct express_rate_positive as (c & Hc & Hcp).
  destruct base_charge_finite as (b & Hb).
  rewrite Hc, Hb, of_Z_0.
  apply round2_mono. apply fadd_mono_r.
  - rewrite <- (fmul_zero_l c), (fmul_comm (Fin false 0)).
    apply fmul_mono_r; [exact Hcp|]. cbn. unfold sval. apply Z.leb_le. lia.
  - apply fadd_fin_not_nan.
  - unfold fmul, pack. cbn [xorb].
    destruct (_ <? top); [apply fadd_fin_not_nan|reflexivity].
Qed.




(** Claim C6 fails on the code.  For a product of 0.004 kg, a weight
    the product accepts, carried over 50 km, the express surcharge
    [round2 (1.2 * 0.004)] is 0.0, the delivery total is the same for
    both speeds and so is the shipping charge: express does not cost
    more than standard. *)
Lemma express_charge_can_equal_standard :
  let w := dec4 40 in
  let d := of_Z 50 in
  fltb (of_Z 0) w = true
  /\ valid_product {| product_id := 9; p_name := "Sachet"; price := of_Z 5;
                      weight_kg := w; dimensions := None |} = true
  /\ exists rs re,
       charge_for_distance small_angle factory_init STANDARD d w = Ok rs
       /\ charge_for_distance small_angle factory_init EXPRESS d w = Ok re
       /\ extra_charge (delivery_cost re) = Fin false 0
       /\ total (delivery_cost re) = total (delivery_cost rs)
       /\ shipping_charge re = shipping_charge rs
       /\ fltb (shipping_charge rs) (shipping_charge re) = false.
Proof.
  vm_compute. split; [reflexivity|]. split; [reflexivity|].
  do 2 eexists. repeat split; reflexivity.
Qed.


(** ** The distance calculator *)

(** *** Symmetry of the arithmetic *)

Lemma fopp_pack (s : bool) (m : Z) : fopp (pack s m) = pack (negb s) m.
Proof. unfold pack. destruct (m <? top); reflexivity. Qed.

Lemma fopp_involutive (x : f64) : fopp (fopp x) = x.
Proof. destruct x as [|s|s k]; cbn; rewrite ?negb_involutive; reflexivity. Qed.

(** Swapping the operands of a subtraction negates the result, except
    that [x - x] is [+0.0] both ways. *)
Lemma fsub_swap (x y : f64) :
  fsub y x = fopp (fsub x y)
  \/ (fsub x y = Fin false 0 /\ fsub y x = Fin false 0).
Proof.
  unfold fsub. destruct x as [|s1|s1 k1], y as [|s2|s2 k2]; cbn [fopp fadd];
    try (left; reflexivity).
  - left. destruct s1, s2; reflexivity.
  - left. rewrite negb_involutive. reflexivity.
  - assert (E : sval s2 k2 + sval (negb s1) k1 = - (sval s1 k1 + sval (negb s2) k2)).
    { unfold sval. destruct s1, s2; cbn; lia. }
    rewrite E. set (z := sval s1 k1 + sval (negb s2) k2).
    destruct (Z.eqb_spec z 0) as [Hz|Hz].
    + rewrite Hz. cbn [Z.opp Z.eqb]. destruct s1, s2; cbn; auto.
    + destruct (Z.eqb_spec (- z) 0) as [Hz'|_]; [lia|].
      left. rewrite fopp_pack, Z.abs_opp. f_equal.
      destruct (Z.ltb_spec z 0), (Z.ltb_spec (- z) 0); cbn; try reflexivity; lia.
Qed.

Lemma fdiv_opp_l (x : f64) (s : bool) (k : N) :
  fdiv (fopp x) (Fin s k) = fopp (fdiv x (Fin s k)).
Proof.
  destruct x as [|s1|s1 k1]; cbn [fopp fdiv]; try reflexivity.
  - rewrite negb_xorb_l. reflexivity.
  - destruct (k =? 0)%N; [destruct (k1 =? 0)%N|]; cbn [fopp];
      rewrite ?fopp_pack, ?negb_xorb_l; reflexivity.
Qed.

Lemma fsub_self (s : bool) (k : N) : fsub (Fin s k) (Fin s k) = Fin false 0.
Proof.
  unfold fsub. cbn [fopp fadd].
  assert (E : sval s k + sval (negb s) k = 0) by (unfold sval; destruct s; cbn; lia).
  rewrite E. cbn. rewrite andb_negb_r. reflexivity.
Qed.

(** *** The [math] wrappers *)

Lemma math_1_opp (f : f64 -> f64) (x : f64) :
  f (fopp x) = fopp (f x) ->
  math_1 f (fopp x)
  = match math_1 f x with Ok r => Ok (fopp r) | Raise e => Raise e end.
Proof.
  intros E. unfold math_1. rewrite E.
  destruct (f x) as [|sr|sr kr], x as [|sx|sx kx]; reflexivity.
Qed.

Lemma math_1_cases (f : f64 -> f64) (x : f64) :
  (exists r, math_1 f x = Ok r /\ r = f x)
  \/ math_1 f x = Raise (ValueError "math domain error").
Proof.
  unfold math_1.
  destruct (is_nan (f x) && negb (is_nan x)); [right; reflexivity|].
  destruct (is_inf (f x) && is_finite x); [right; reflexivity|].
  left. exists (f x). split; reflexivity.
Qed.

Lemma float_pow_2_opp (P : Platform) (x : f64) :
  float_pow_2 P (fopp x) = float_pow_2 P x.
Proof. destruct x as [|s|s k]; reflexivity. Qed.

(** *** The calculator *)

Lemma calculate_unfold (P : Platform) (a b : Location) :
  calculate P a b
  = (sq_dlat <- squared_sine P (fsub (math_radians (lat b)) (math_radians (lat a))) ;;
     cos1 <- math_cos P (math_radians (lat a)) ;;
     cos2 <- math_cos P (math_radians (lat b)) ;;
     sq_dlon <- squared_sine P (fsub (math_radians (lng b)) (math_radians (lng a))) ;;
     haversine_tail P sq_dlat sq_dlon cos1 cos2).
Proof.
  unfold calculate, squared_sine, haversine_tail, bind.
  destruct (math_sin P _); [|reflexivity].
  destruct (float_pow_2 P _); [|reflexivity].
  destruct (math_cos P _); [|reflexivity].
  destruct (math_cos P _); [|reflexivity].
  destruct (math_sin P _); [|reflexivity].
  destruct (float_pow_2 P _); reflexivity.
Qed.

Lemma squared_sine_opp (P : Platform) (delta : f64) :
  (forall x, libm_sin P (fopp x) = fopp (libm_sin P x)) ->
  squared_sine P (fopp delta) = squared_sine P delta.
Proof.
  intros Hodd. unfold squared_sine, math_sin.
  assert (E2 : exists k2, of_Z 2 = Fin false k2) by (vm_compute; eexists; reflexivity).
  destruct E2 as [k2 ->]. rewrite fdiv_opp_l, math_1_opp by apply Hodd.
  destruct (math_1 (libm_sin P) (fdiv delta (Fin false k2))) as [r|e]; cbn [bind];
    [apply float_pow_2_opp|reflexivity].
Qed.

Lemma squared_sine_swap (P : Platform) (x y : f64) :
  (forall x, libm_sin P (fopp x) = fopp (libm_sin P x)) ->
  squared_sine P (fsub y x) = squared_sine P (fsub x y).
Proof.
  intros Hodd. destruct (fsub_swap x y) as [E|[E1 E2]].
  - rewrite E. apply squared_sine_opp. exact Hodd.
  - rewrite E1, E2. reflexivity.
Qed.

Lemma haversine_tail_swap (P : Platform) (p q c1 c2 : f64) :
  haversine_tail P p q c1 c2 = haversine_tail P p q c2 c1.
Proof. unfold haversine_tail. rewrite (fmul_comm c1 c2). reflexivity. Qed.

Lemma calculate_symmetric (P : Platform) (a b : Location) :
  (forall x, libm_sin P (fopp x) = fopp (libm_sin P x)) ->
  calculate P a b = calculate P b a.
Proof.
  intros Hodd. rewrite !calculate_unfold.
  rewrite (squared_sine_swap P (math_radians (lat a)) (math_radians (lat b)) Hodd).
  rewrite (squared_sine_swap P (math_radians (lng a)) (math_radians (lng b)) Hodd).
  unfold bind.
  destruct (squared_sine P (fsub (math_radians (lat a)) (math_radians (lat b)))) as [p|e];
    [|reflexivity].
  unfold math_cos.
  destruct (math_1_cases (libm_cos P) (math_radians (lat a))) as [(c1 & -> & _)| ->],
           (math_1_cases (libm_cos P) (math_radians (lat b))) as [(c2 & -> & _)| ->];
    [|exact eq_refl|exact eq_refl|exact eq_refl].
  destruct (squared_sine P (fsub (math_radians (lng a)) (math_radians (lng b)))) as [q|e];
    [|reflexivity].
  apply haversine_tail_swap.
Qed.

(** *** A location against itself *)

Lemma degrees_fin :
  exists K kd,
    of_Z 180 = Fin false K /\ of_Z (-180) = Fin true K
    /\ of_Z 90 = Fin false (Z.to_N (90 * scale))
    /\ of_Z (-90) = Fin true (Z.to_N (90 * scale))
    /\ Z.of_N (Z.to_N (90 * scale)) <= Z.of_N K
    /\ degToRad = Fin false kd
    /\ rnd_mag (Z.of_N K * Z.of_N kd) scale < top.
Proof.
  exists (Z.to_N (180 * scale)), (match degToRad with Fin _ k => k | _ => 0%N end).
  repeat split; vm_compute; try reflexivity. discriminate.
Qed.

Lemma math_radians_finite (x : f64) :
  fleb (of_Z (-180)) x && fleb x (of_Z 180) = true ->
  exists s k, math_radians x = Fin s k.
Proof.
  destruct degrees_fin as (K & kd & E1 & E2 & _ & _ & _ & Ed & Hb).
  rewrite E1, E2. intros H. apply andb_true_iff in H as [Hl Hu].
  destruct x as [|s|s k]; [discriminate Hl|destruct s; [discriminate Hl|discriminate Hu]|].
  unfold fleb, sval in Hl, Hu. apply Z.leb_le in Hl, Hu.
  unfold math_radians. rewrite Ed. unfold fmul, pack.
  assert (Hm : rnd_mag (Z.of_N k * Z.of_N kd) scale <= rnd_mag (Z.of_N K * Z.of_N kd) scale).
  { apply rnd_mag_mono; try exact scale_pos.
    apply Z.mul_le_mono_nonneg_r; [pose proof scale_pos; lia|].
    apply Z.mul_le_mono_nonneg_r; [lia|]. destruct s; lia. }
  destruct (Z.ltb_spec (rnd_mag (Z.of_N k * Z.of_N kd) scale) top); [|lia].
  eexists _, _. reflexivity.
Qed.

Lemma valid_location_radians (l : Location) :
  valid_location l = true ->
  (exists s k, math_radians (lat l) = Fin s k)
  /\ (exists s k, math_radians (lng l) = Fin s k).
Proof.
  unfold valid_location. intros H.
  apply andb_true_iff in H as [H Hd]. apply andb_true_iff in H as [H Hc].
  apply andb_true_iff in H as [Ha Hb].
  destruct degrees_fin as (K & kd & E1 & E2 & E3 & E4 & HK & _).
  split; apply math_radians_finite; apply andb_true_iff; split; try assumption.
  - apply fleb_trans with (of_Z (-90)); [|exact Ha].
    rewrite E2, E4. unfold fleb, sval. apply Z.leb_le. lia.
  - apply fleb_trans with (of_Z 90); [exact Hb|].
    rewrite E1, E3. unfold fleb, sval. apply Z.leb_le. lia.
Qed.

Lemma squared_sine_zero (P : Platform) :
  libm_sin P (Fin false 0) = Fin false 0 ->
  squared_sine P (Fin false 0) = Ok (Fin false 0).
Proof.
  intros H0. unfold squared_sine, math_sin.
  assert (E : fdiv (Fin false 0) (of_Z 2) = Fin false 0) by (vm_compute; reflexivity).
  rewrite E. unfold math_1. rewrite H0. reflexivity.
Qed.

Lemma unit_square_fits :
  of_Z 1 = Fin false (Z.to_N scale) /\ rnd_mag (scale * scale) scale < top.
Proof. vm_compute. split; reflexivity. Qed.

Lemma haversine_tail_zero (P : Platform) (c : f64) :
  fleb (fabs c) (of_Z 1) = true ->
  haversine_tail P (Fin false 0) (Fin false 0) c c = Ok (Fin false 0).
Proof.
  destruct unit_square_fits as [E1 Hb]. rewrite E1.
  destruct c as [|s|s k]; try (intros H; discriminate H).
  intros H. unfold fabs, fleb, sval in H.
  apply Z.leb_le in H. rewrite Z2N.id in H by (pose proof scale_pos; lia).
  assert (E : fmul (fmul (Fin s k) (Fin s k)) (Fin false 0) = Fin false 0).
  { unfold fmul at 2. unfold pack.
    assert (Hm : rnd_mag (Z.of_N k * Z.of_N k) scale <= rnd_mag (scale * scale) scale).
    { apply rnd_mag_mono; try exact scale_pos.
      apply Z.mul_le_mono_nonneg_r; [pose proof scale_pos; lia|].
      apply Z.mul_le_mono_nonneg; lia. }
    destruct (Z.ltb_spec (rnd_mag (Z.of_N k * Z.of_N k) scale) top); [|lia].
    rewrite xorb_nilpotent. unfold fmul. cbn [xorb]. change (Z.of_N 0) with 0.
    rewrite Z.mul_0_r, rnd_mag_zero by exact scale_pos. reflexivity. }
  unfold haversine_tail. rewrite E. vm_compute. reflexivity.
Qed.

(** Claim C8.  With a C library whose sine is odd and maps [+0.0] to
    itself and whose cosine stays within [-1, 1], the distance between
    two valid locations is the same in both directions, and the
    distance from a valid location to itself is [0.0]. *)
Theorem distance_symmetric_and_zero_on_itself (P : Platform) (a b : Location) :
  (forall x, libm_sin P (fopp x) = fopp (libm_sin P x)) ->
  libm_sin P (Fin false 0) = Fin false 0 ->
  (forall x, is_finite x = true -> fleb (fabs (libm_cos P x)) (of_Z 1) = true) ->
  valid_location a = true -> valid_location b = true ->
  calculate P a b = calculate P b a
  /\ calculate P a a = Ok (Fin false 0).
Proof.
  intros Hodd Hzero Hcos Ha _. split; [apply calculate_symmetric; exact Hodd|].
  rewrite calculate_unfold.
  destruct (valid_location_radians a Ha) as [(s1 & k1 & E1) (s2 & k2 & E2)].
  rewrite E1, E2, !fsub_self, (squared_sine_zero P Hzero). cbn [bind].
  pose proof (Hcos (Fin s1 k1) eq_refl) as Hc.
  pose proof Hc as Hc'. rewrite (proj1 unit_square_fits) in Hc'.
  unfold math_cos, math_1.
  destruct (libm_cos P (Fin s1 k1)) as [|sc|sc kc] eqn:Ec;
    [discriminate Hc'|discriminate Hc'|].
  cbn [is_nan is_inf andb bind]. apply haversine_tail_zero. exact Hc.
Qed.

Lemma small_angle_cos_bounded (x : f64) :
  fleb (fabs (small_angle_cos x)) (of_Z 1) = true.
Proof.
  unfold small_angle_cos.
  destruct (fleb (fabs (fsub (of_Z 1) (fdiv (fmul x x) (of_Z 2)))) (of_Z 1)) eqn:E;
    [exact E|]. vm_compute. reflexivity.
Qed.

Lemma distance_symmetric_and_zero_on_itself_witness :
  calculate small_angle (w_location mumbai_warehouse) (c_location rahul_verma)
  = calculate small_angle (c_location rahul_verma) (w_location mumbai_warehouse)
  /\ calculate small_angle (w_location mumbai_warehouse) (w_location mumbai_warehouse)
     = Ok (Fin false 0).
Proof.
  apply distance_symmetric_and_zero_on_itself.
  - intros x. reflexivity.
  - reflexivity.
  - intros x _. apply small_angle_cos_bounded.
  - vm_compute. reflexivity.
  - vm_compute. reflexivity.
Defined.


(* ================================================================= *)
(** * Further properties of the code *)

(** ** More on the repositories *)

Section StoreOperations.
Context {T : Type} `{HasId T}.

Lemma exists_false_keys (st : store T) (k : Z) :
  exists_ st k = false <-> ~ In k (map fst st).
Proof.
  unfold exists_. induction st as [|[k0 v0] st IH]; cbn.
  - intuition.
  - destruct (Z.eqb_spec k0 k) as [->|N].
    + split; [discriminate|]. intros Hn. exfalso. apply Hn. left. reflexivity.
    + rewrite IH. intuition.
Qed.

Lemma dict_set_fresh (st : store T) (k : Z) (v : T) :
  ~ In k (map fst st) -> dict_set st k v = st ++ [(k, v)].
Proof.
  induction st as [|[k0 v0] st IH]; cbn; [reflexivity|].
  intros Hn. destruct (Z.eqb_spec k0 k) as [->|N]; [exfalso; apply Hn; left; reflexivity|].
  rewrite IH by (intros Hin; apply Hn; right; exact Hin). reflexivity.
Qed.

Lemma dict_set_present (st : store T) (k : Z) (v : T) :
  In k (map fst st) ->
  map fst (dict_set st k v) = map fst st /\ List.length (dict_set st k v) = List.length st.
Proof.
  induction st as [|[k0 v0] st IH]; cbn; [intros []|].
  intros Hin. destruct (Z.eqb_spec k0 k) as [->|N]; cbn; [split; reflexivity|].
  destruct Hin as [E|Hin]; [contradiction|].
  destruct (IH Hin) as [E1 E2]. rewrite E1, E2. split; reflexivity.
Qed.

(** Property X1.  What [add] stores is what [get_by_id] returns under the
    entity's id, and no other id is affected. *)
Theorem add_then_get_by_id (st : store T) (entity : T) (k : Z) :
  get_by_id (add st entity) (_get_id entity) = Some entity
  /\ (k <> _get_id entity -> get_by_id (add st entity) k = get_by_id st k).
Proof.
  unfold add, get_by_id. split; [apply dict_get_set_same|].
  intros N. apply dict_get_set_other. congruence.
Qed.

(** Property X2.  A new id is appended after every stored entity; an id that
    is already stored keeps its place, and the store its size. *)
Theorem add_keeps_insertion_order (st : store T) (entity : T) :
  (exists_ st (_get_id entity) = false ->
   get_all (add st entity) = get_all st ++ [entity]
   /\ count (add st entity) = S (count st))
  /\ (exists_ st (_get_id entity) = true ->
      map fst (add st entity) = map fst st
      /\ count (add st entity) = count st).
Proof.
  unfold add, get_all, count. split; intros E.
  - apply exists_false_keys in E. rewrite (dict_set_fresh _ _ _ E).
    rewrite map_app, length_app. cbn. split; [reflexivity|lia].
  - apply dict_set_present.
    destruct (in_dec Z.eq_dec (_get_id entity) (map fst st)) as [Hin|Hn]; [exact Hin|].
    apply exists_false_keys in Hn. congruence.
Qed.

Lemma dict_del_keys (st : store T) (k k' : Z) :
  In k' (map fst (dict_del st k)) -> In k' (map fst st).
Proof.
  induction st as [|[k0 v0] st IH]; cbn; [intros []|].
  destruct (Z.eqb_spec k0 k); cbn; intuition.
Qed.

Lemma dict_del_keyed (st : store T) (k : Z) : keyed st -> keyed (dict_del st k).
Proof.
  unfold keyed. intros [HF HN].
  induction st as [|[k0 v0] st IH]; cbn; [split; constructor|].
  inversion HF as [|? ? H0 HF']; subst. inversion HN as [|? ? Hn HN']; subst.
  destruct (Z.eqb_spec k0 k); [split; assumption|].
  destruct (IH HF' HN') as [IF IN]. split; constructor; try assumption.
  intros Hin. apply Hn. apply (dict_del_keys _ _ _ Hin).
Qed.

Lemma dict_del_get (st : store T) (k : Z) :
  NoDup (map fst st) ->
  dict_get (dict_del st k) k = None
  /\ forall k', k' <> k -> dict_get (dict_del st k) k' = dict_get st k'.
Proof.
  intros HN. induction st as [|[k0 v0] st IH]; cbn; [split; reflexivity|].
  inversion HN as [|? ? Hn HN']; subst.
  destruct (IH HN') as [I1 I2].
  destruct (Z.eqb_spec k0 k) as [->|N]; cbn.
  - split.
    + destruct (dict_get st k) eqn:E; [|reflexivity].
      exfalso. apply Hn. clear -E. induction st as [|[k1 v1] st IH]; cbn in *; [discriminate|].
      destruct (Z.eqb_spec k1 k); [left; assumption|right; apply IH; exact E].
    + intros k' N'. destruct (Z.eqb_spec k k'); [congruence|reflexivity].
  - destruct (Z.eqb_spec k0 k); [contradiction|]. split; [exact I1|].
    intros k' N'. destruct (Z.eqb_spec k0 k'); [reflexivity|apply I2; exact N'].
Qed.

Lemma dict_del_length (st : store T) (k : Z) :
  exists_ st k = true -> S (List.length (dict_del st k)) = List.length st.
Proof.
  unfold exists_. induction st as [|[k0 v0] st IH]; cbn; [discriminate|].
  destruct (Z.eqb_spec k0 k); [reflexivity|]. intros E. cbn. rewrite IH by exact E.
  reflexivity.
Qed.

(** Property X3.  Every operation of the repository keeps the store keyed, each
    entity under its own id and no id twice; and in a keyed store
    every listed entity is found under its id, and only there. *)
Theorem repository_stays_keyed (st : store T) (entity : T) (k : Z) :
  keyed st ->
  keyed (add st entity)
  /\ keyed (fst (update st entity))
  /\ keyed (fst (delete st k))
  /\ keyed (clear st)
  /\ (forall e, In e (get_all st) <-> get_by_id st (_get_id e) = Some e)
  /\ (forall k' e, get_by_id st k' = Some e -> _get_id e = k').
Proof.
  intros K. split; [apply add_keyed; exact K|]. split.
  { unfold update. destruct (exists_ st (_get_id entity)); cbn [fst]; [|exact K].
    apply dict_set_keyed; [reflexivity|exact K]. }
  split.
  { unfold delete. destruct (exists_ st k); cbn [fst]; [|exact K].
    apply dict_del_keyed. exact K. }
  split; [apply keyed_empty|]. split.
  - intros e. split; [apply keyed_lookup; exact K|apply get_by_id_in].
  - intros k' e. destruct K as [HF _]. unfold get_by_id.
    induction st as [|[k0 v0] st IH]; cbn; [discriminate|].
    inversion HF as [|? ? H0 HF']; subst. cbn [fst snd] in H0.
    destruct (Z.eqb_spec k0 k') as [->|N].
    + intros E. injection E as <-. exact H0.
    + apply IH. exact HF'.
Qed.

(** Property X4.  In a store that holds no id twice, as a dict does, [delete]
    answers whether the id was stored; afterwards the id is gone,
    every other id is untouched, and the store is one entity shorter
    exactly when the answer is yes. *)
Theorem delete_removes_only_that_id (st : store T) (k : Z) :
  NoDup (map fst st) ->
  snd (delete st k) = exists_ st k
  /\ get_by_id (fst (delete st k)) k = None
  /\ (forall k', k' <> k -> get_by_id (fst (delete st k)) k' = get_by_id st k')
  /\ (count (fst (delete st k)) + (if exists_ st k then 1 else 0))%nat = count st.
Proof.
  intros HN. unfold delete, get_by_id, count.
  destruct (exists_ st k) eqn:E; cbn [fst snd].
  - destruct (dict_del_get st k HN) as [D1 D2].
    split; [reflexivity|]. split; [exact D1|]. split; [exact D2|].
    rewrite <- (dict_del_length st k E). lia.
  - split; [reflexivity|]. split.
    + unfold exists_ in E. destruct (dict_get st k); [discriminate|reflexivity].
    + split; [reflexivity|lia].
Qed.

(** Property X5.  [update] changes nothing and answers [None] for an id that is
    not stored; for a stored id it answers the entity, which is then
    what [get_by_id] returns, and order and size are unchanged. *)
Theorem update_only_replaces (st : store T) (entity : T) :
  (exists_ st (_get_id entity) = false -> update st entity = (st, None))
  /\ (exists_ st (_get_id entity) = true ->
      snd (update st entity) = Some entity
      /\ get_by_id (fst (update st entity)) (_get_id entity) = Some entity
      /\ map fst (fst (update st entity)) = map fst st
      /\ count (fst (update st entity)) = count st).
Proof.
  unfold update. split; intros E; rewrite E; [reflexivity|]. cbn [fst snd].
  split; [reflexivity|]. split; [apply dict_get_set_same|].
  apply dict_set_present.
  destruct (in_dec Z.eq_dec (_get_id entity) (map fst st)) as [Hin|Hn]; [exact Hin|].
  apply exists_false_keys in Hn. congruence.
Qed.

End StoreOperations.

Lemma repository_stays_keyed_witness :
  keyed (add (warehouse seed_repositories) delhi_warehouse)
  /\ get_by_id (warehouse seed_repositories) 2 = Some delhi_warehouse.
Proof.
  destruct (repository_stays_keyed (warehouse seed_repositories) delhi_warehouse 1
              seed_keyed) as (Ka & _ & _ & _ & Hl & _).
  split; [exact Ka|].
  apply (proj1 (Hl delhi_warehouse)). right. left. reflexivity.
Defined.

Lemma delete_removes_only_that_id_witness :
  get_by_id (fst (delete (warehouse seed_repositories) 1)) 1 = None
  /\ get_by_id (fst (delete (warehouse seed_repositories) 1)) 2 = Some delhi_warehouse.
Proof.
  destruct (delete_removes_only_that_id (warehouse seed_repositories) 1
              (proj2 seed_keyed)) as (_ & Hd & Ho & _).
  split; [exact Hd|]. rewrite (Ho 2) by discriminate. reflexivity.
Defined.

(** ** Searching the products *)

(** Property X6.  A price range whose bounds are inverted contains no product;
    every product returned is stored, its price is not nan and lies
    within the bounds; and the products come in the store's order. *)
Theorem find_by_price_range_bounds (st : store Product) (min_price max_price : f64) :
  (fltb max_price min_price = true -> find_by_price_range st min_price max_price = [])
  /\ (forall p, In p (find_by_price_range st min_price max_price) ->
      In p (get_all st) /\ is_nan (price p) = false
      /\ fleb min_price (price p) = true /\ fleb (price p) max_price = true)
  /\ (forall p, In p (get_all st) ->
      fleb min_price (price p) = true -> fleb (price p) max_price = true ->
      In p (find_by_price_range st min_price max_price)).
Proof.
  unfold find_by_price_range, get_all. split; [|split].
  - intros Hinv. induction (map snd st) as [|p l IH]; cbn; [reflexivity|].
    destruct (fleb min_price (price p)) eqn:E1; [|exact IH].
    destruct (fleb (price p) max_price) eqn:E2; [|exact IH].
    pose proof (fleb_trans _ _ _ E1 E2) as Hle.
    apply fleb_fltb_false in Hle. congruence.
  - intros p Hin. apply filter_In in Hin as [Hin Hb].
    apply andb_true_iff in Hb as [H1 H2].
    split; [exact Hin|]. split; [apply (fleb_not_nan _ _ H1)|]. split; assumption.
  - intros p Hin H1 H2. apply filter_In. split; [exact Hin|].
    rewrite H1, H2. reflexivity.
Qed.

(** ** More on the factory *)

Lemma registrations_keep_strategies (regs : list ShippingStrategy) :
  forall f s, In s (_strategies f) ->
  In s (_strategies (fold_left register_strategy regs f)).
Proof.
  induction regs as [|r regs IH]; intros f s Hs; cbn [fold_left]; [exact Hs|].
  apply IH. apply register_strategy_in. left. exact Hs.
Qed.

Lemma last_item_in {A : Type} (l : list A) (x : A) : last_item l = Ok x -> In x l.
Proof.
  unfold last_item. destruct (rev l) as [|y r] eqn:Er; [intros H; discriminate H|].
  intros H. apply Ok_inj in H. subst y. apply in_rev. rewrite Er. left. reflexivity.
Qed.

Lemma last_item_nonempty {A : Type} (l : list A) (a : A) :
  In a l -> exists x, last_item l = Ok x.
Proof.
  unfold last_item. intros Ha. destruct (rev l) as [|y r] eqn:Er.
  - apply in_rev in Ha. rewrite Er in Ha. destruct Ha.
  - exists y. reflexivity.
Qed.

(** Property X7.  Whatever has been registered, [get_strategy] raises only
    for a negative distance, and then [ValueError]; for every other
    distance, nan and infinity included, it returns one of the
    factory's strategies. *)
Theorem get_strategy_raises_only_for_negative (P : Platform)
  (regs : list ShippingStrategy) (d : f64) :
  let f := fold_left register_strategy regs factory_init in
  (fltb d (of_Z 0) = true ->
   get_strategy P f d
   = Raise (ValueError ("Distance cannot be negative: " ++ repr_float P d)))
  /\ (fltb d (of_Z 0) = false ->
      exists s, get_strategy P f d = Ok s /\ In s (_strategies f)).
Proof.
  intros f. unfold get_strategy. split; intros E; rewrite E; [reflexivity|].
  destruct (find (fun s => is_applicable s d) (_strategies f)) as [s|] eqn:Ef.
  - exists s. split; [reflexivity|]. apply find_some in Ef. apply Ef.
  - assert (Hin : In MiniVanStrategy (_strategies f)).
    { apply registrations_keep_strategies. left. reflexivity. }
    destruct (last_item_nonempty _ _ Hin) as [x Hx]. exists x.
    split; [exact Hx|]. apply last_item_in. exact Hx.
Qed.

Lemma find_first {A : Type} (p : A -> bool) (l : list A) (x : A) :
  find p l = Some x ->
  exists l1 l2, l = l1 ++ x :: l2 /\ p x = true /\ Forall (fun a => p a = false) l1.
Proof.
  induction l as [|a l IH]; cbn; [discriminate|].
  destruct (p a) eqn:E.
  - intros H. injection H as ->. exists [], l. repeat split; [exact E|constructor].
  - intros H. destruct (IH H) as (l1 & l2 & -> & Hp & Hf).
    exists (a :: l1), l2. repeat split; [exact Hp|constructor; assumption].
Qed.

Lemma find_none_applicable (l : list ShippingStrategy) (d : f64) (s : ShippingStrategy) :
  find (fun s => is_applicable s d) l = None -> In s l -> is_applicable s d = false.
Proof. intros Hn Hin. apply (find_none _ _ Hn _ Hin). Qed.

(** Property X8.  The strategy [get_strategy] returns is the first of the
    list that applies; every strategy before it does not apply, and
    on an ascending list no applicable strategy has a smaller
    [min_distance], so a registered strategy that overlaps an
    earlier one is never chosen where the two overlap. *)
Theorem get_strategy_first_applicable (P : Platform) (f : ShippingStrategyFactory)
  (d : f64) (s : ShippingStrategy) :
  ascending (_strategies f) ->
  get_strategy P f d = Ok s ->
  (exists s', In s' (_strategies f) /\ is_applicable s' d = true) ->
  is_applicable s d = true
  /\ (exists before after,
        _strategies f = before ++ s :: after
        /\ Forall (fun a => is_applicable a d = false) before)
  /\ (forall s', In s' (_strategies f) -> is_applicable s' d = true ->
      fleb (min_distance s) (min_distance s') = true).
Proof.
  intros Ha Hg (s0 & Hin0 & Hap0). unfold get_strategy in Hg.
  destruct (fltb d (of_Z 0)); [discriminate Hg|].
  destruct (find (fun s => is_applicable s d) (_strategies f)) as [x|] eqn:Ef.
  - apply Ok_inj in Hg. subst x.
    destruct (find_first _ _ _ Ef) as (l1 & l2 & El & Hp & Hf).
    split; [exact Hp|]. split; [exists l1, l2; split; assumption|].
    intros s' Hin Hap. unfold ascending in Ha. rewrite El in Ha, Hin.
    apply in_app_or in Hin as [Hin|[<-|Hin]].
    + rewrite Forall_forall in Hf. rewrite (Hf _ Hin) in Hap. discriminate Hap.
    + apply andb_true_iff in Hap as [Hap _]. apply fleb_not_nan in Hap.
      apply fleb_refl. apply Hap.
    + clear -Ha Hin. induction l1 as [|a l1 IH]; cbn in Ha.
      * inversion Ha as [|? ? _ Hall]; subst. rewrite Forall_forall in Hall.
        apply Hall. exact Hin.
      * inversion Ha; subst. apply IH. assumption.
  - rewrite (find_none_applicable _ _ _ Ef Hin0) in Hap0. discriminate Hap0.
Qed.

Lemma get_strategy_first_applicable_witness :
  is_applicable TruckStrategy (of_Z 100) = true
  /\ forall s', In s' (_strategies factory_init) ->
     is_applicable s' (of_Z 100) = true ->
     fleb (min_distance TruckStrategy) (min_distance s') = true.
Proof.
  assert (G : get_strategy small_angle factory_init (of_Z 100) = Ok TruckStrategy).
  { vm_compute. reflexivity. }
  assert (E : exists s', In s' (_strategies factory_init)
                         /\ is_applicable s' (of_Z 100) = true).
  { exists TruckStrategy. split; [right; left; reflexivity|vm_compute; reflexivity]. }
  destruct (get_strategy_first_applicable small_angle factory_init (of_Z 100)
              TruckStrategy factory_init_ascending G E) as (H1 & _ & H3).
  split; [exact H1|exact H3].
Defined.

(** *** Registration is a stable insertion *)

Section StableInsertion.
Context {A : Type} (key : A -> f64).

Lemma sort_insert_last (x : A) (l : list A) :
  Forall (fun a => fltb (key x) (key a) = false) l -> sort_insert key x l = l ++ [x].
Proof.
  induction 1 as [|a l Ha _ IH]; cbn; [reflexivity|]. rewrite Ha, IH. reflexivity.
Qed.

Lemma fold_insert_sorted_id (l acc : list A) :
  StronglySorted (key_le key) (acc ++ l) ->
  fold_left (fun acc x => sort_insert key x acc) l acc = acc ++ l.
Proof.
  revert acc. induction l as [|x l IH]; intros acc Hs; cbn.
  - rewrite app_nil_r. reflexivity.
  - assert (E : acc ++ x :: l = (acc ++ [x]) ++ l) by (rewrite <- app_assoc; reflexivity).
    rewrite sort_insert_last.
    + rewrite IH; [symmetry; exact E|]. rewrite <- E. exact Hs.
    + clear IH E. induction acc as [|a acc IHa]; [constructor|].
      cbn in Hs. inversion Hs as [|? ? Hs' Hall]; subst.
      constructor; [|apply IHa; exact Hs'].
      rewrite Forall_forall in Hall. apply fleb_fltb_false. apply Hall.
      apply in_or_app. right. left. reflexivity.
Qed.

Lemma list_sort_sorted_id (l : list A) :
  StronglySorted (key_le key) l -> list_sort key l = l.
Proof.
  intros Hs. unfold list_sort, stable_sort. destruct (one_run key l); [reflexivity|].
  apply (fold_insert_sorted_id l []). exact Hs.
Qed.

Lemma stable_sort_snoc (l : list A) (x : A) :
  stable_sort key (l ++ [x]) = sort_insert key x (stable_sort key l).
Proof. unfold stable_sort. rewrite fold_left_app. reflexivity. Qed.

(** When an ascending list with one more element is still one run, the
    new element is smaller than none of the others. *)
Lemma one_run_append_last (l : list A) (x : A) :
  StronglySorted (key_le key) l -> one_run key (l ++ [x]) = true ->
  Forall (fun a => fltb (key x) (key a) = false) l.
Proof.
  induction l as [|a l IH]; intros Hs Hr; [constructor|].
  inversion Hs as [|? ? Hs' Ha]; subst.
  destruct l as [|b l'].
  - cbn in Hr. rewrite andb_true_r in Hr. apply negb_true_iff in Hr.
    constructor; [exact Hr|constructor].
  - change ((a :: b :: l') ++ [x]) with (a :: (b :: l') ++ [x]) in Hr.
    change ((b :: l') ++ [x]) with (b :: l' ++ [x]) in Hr at 1.
    cbn [one_run] in Hr. apply andb_true_iff in Hr as [_ Hr].
    change (b :: l' ++ [x]) with ((b :: l') ++ [x]) in Hr.
    pose proof (IH Hs' Hr) as Hf. constructor; [|exact Hf].
    inversion Hf as [|? ? Hb _]; subst. inversion Ha as [|? ? Hab _]; subst.
    destruct (fltb (key x) (key a)) eqn:E; [|reflexivity].
    rewrite (fltb_fleb_trans _ _ _ E Hab) in Hb. discriminate Hb.
Qed.

(** Sorting an ascending list with one more element at its end puts
    that element where the stable insertion puts it. *)
Lemma list_sort_append (l : list A) (x : A) :
  StronglySorted (key_le key) l -> list_sort key (l ++ [x]) = sort_insert key x l.
Proof.
  intros Hs. unfold list_sort. destruct (one_run key (l ++ [x])) eqn:Hr.
  - symmetry. apply sort_insert_last. apply one_run_append_last; assumption.
  - rewrite stable_sort_snoc. unfold stable_sort.
    rewrite (fold_insert_sorted_id l []); [reflexivity|exact Hs].
Qed.

Lemma sort_insert_split (x : A) (l : list A) :
  exists l1 l2,
    l = l1 ++ l2 /\ sort_insert key x l = l1 ++ x :: l2
    /\ Forall (fun a => fltb (key x) (key a) = false) l1
    /\ match l2 with [] => True | b :: _ => fltb (key x) (key b) = true end.
Proof.
  induction l as [|a l IH]; cbn.
  - exists [], []. repeat split. constructor.
  - destruct (fltb (key x) (key a)) eqn:E.
    + exists [], (a :: l). repeat split; [constructor|exact E].
    + destruct IH as (l1 & l2 & -> & -> & Hf & Hl).
      exists (a :: l1), l2. repeat split; [constructor; assumption|exact Hl].
Qed.

End StableInsertion.

(** Property X9.  Registering on an ascending list moves no strategy: the
    new one is put in front of the first strategy whose
    [min_distance] is strictly greater, behind every strategy with an
    equal one, and at the end if there is none. *)
Theorem register_strategy_is_stable (f : ShippingStrategyFactory) (s : ShippingStrategy) :
  ascending (_strategies f) ->
  exists before after,
    _strategies f = before ++ after
    /\ _strategies (register_strategy f s) = before ++ s :: after
    /\ Forall (fun a => fltb (min_distance s) (min_distance a) = false) before
    /\ match after with
       | [] => True
       | b :: _ => fltb (min_distance s) (min_distance b) = true
       end.
Proof.
  intros Ha. unfold register_strategy. cbn [_strategies].
  rewrite (list_sort_append _ _ _ Ha).
  apply sort_insert_split.
Qed.

Lemma register_strategy_is_stable_witness :
  exists before after,
    _strategies factory_init = before ++ after
    /\ _strategies (register_strategy factory_init cargo_bike) = before ++ cargo_bike :: after.
Proof.
  destruct (register_strategy_is_stable factory_init cargo_bike factory_init_ascending)
    as (l1 & l2 & H1 & H2 & _).
  exists l1, l2. split; [exact H1|exact H2].
Defined.

(** *** When the fallback is taken *)

(** Property X10.  On the three default strategies the fallback to the last
    strategy is taken only for a distance that is not finite: every
    finite distance that is not negative, 500 included, has a
    strategy that applies; nan and infinity have none, and go by
    Aeroplane. *)
Theorem default_fallback_only_when_not_finite (P : Platform) (d : f64) :
  fltb d (of_Z 0) = false ->
  (find (fun s => is_applicable s d) (_strategies factory_init) = None
   <-> is_finite d = false)
  /\ (is_finite d = false -> get_strategy P factory_init d = Ok AeroplaneStrategy).
Proof.
  intros Hd.
  assert (A : find (fun s => is_applicable s d) (_strategies factory_init) = None
              <-> is_finite d = false).
  { change (find (fun s => is_applicable s d) (_strategies factory_init))
      with (if is_applicable MiniVanStrategy d then Some MiniVanStrategy
            else if is_applicable TruckStrategy d then Some TruckStrategy
            else if is_applicable AeroplaneStrategy d then Some AeroplaneStrategy
            else None).
    unfold is_applicable.
    change (min_distance MiniVanStrategy) with (of_Z 0).
    change (max_distance MiniVanStrategy) with (of_Z 100).
    change (min_distance TruckStrategy) with (of_Z 100).
    change (max_distance TruckStrategy) with (of_Z 500).
    change (min_distance AeroplaneStrategy) with (of_Z 500).
    change (max_distance AeroplaneStrategy) with (Inf false).
    rewrite of_Z_0, of_Z_100, of_Z_500 in *.
    destruct d as [|s|s k].
    - split; reflexivity.
    - destruct s; [discriminate Hd|]. split; reflexivity.
    - split; [|intros H; discriminate H].
      unfold fltb, fleb in *. cbn [negb].
      apply Z.ltb_ge in Hd. change (sval false 0) with 0 in *.
      destruct (Z.leb_spec 0 (sval s k)) as [_|N]; [|lia].
      cbn [andb].
      destruct (Z.ltb_spec (sval s k) (sval false (Z.to_N (100 * scale)))) as [_|H1];
        [intros H; discriminate H|].
      destruct (Z.leb_spec (sval false (Z.to_N (100 * scale))) (sval s k)) as [_|N]; [|lia].
      cbn [andb].
      destruct (Z.ltb_spec (sval s k) (sval false (Z.to_N (500 * scale)))) as [_|H5];
        [intros H; discriminate H|].
      destruct (Z.leb_spec (sval false (Z.to_N (500 * scale))) (sval s k)) as [_|N]; [|lia].
      intros H; discriminate H. }
  split; [exact A|].
  intros Hf. unfold get_strategy. rewrite Hd, (proj2 A Hf). exact eq_refl.
Qed.

Lemma default_fallback_only_when_not_finite_witness :
  find (fun s => is_applicable s (Inf false)) (_strategies factory_init) = None.
Proof.
  apply (proj2 (proj1 (default_fallback_only_when_not_finite small_angle (Inf false)
                         eq_refl))).
  reflexivity.
Defined.

(** ** More on the charge *)

Lemma standard_total_any (w : f64) :
  total (_calculate_delivery_cost STANDARD w) = BASE_COURIER_CHARGE.
Proof. vm_compute. reflexivity. Qed.

Lemma base_charge_nonneg : fleb (Fin false 0) BASE_COURIER_CHARGE = true.
Proof. vm_compute. reflexivity. Qed.

Lemma base_charge_rounded :
  round2 (fadd (Fin false 0) BASE_COURIER_CHARGE) = BASE_COURIER_CHARGE.
Proof. vm_compute. reflexivity. Qed.

Lemma delivery_total_at_least_base (sp : DeliverySpeed) (k : N) :
  (0 < k)%N ->
  fleb BASE_COURIER_CHARGE (total (_calculate_delivery_cost sp (Fin false k))) = true.
Proof.
  intros Hk.
  assert (Hs : fleb BASE_COURIER_CHARGE
                 (total (_calculate_delivery_cost STANDARD (Fin false k))) = true).
  { rewrite standard_total_any. apply fleb_refl.
    destruct base_charge_finite as [b ->]. reflexivity. }
  destruct sp; [exact Hs|].
  apply fleb_trans with (total (_calculate_delivery_cost STANDARD (Fin false k)));
    [exact Hs|apply delivery_total_express_ge; exact Hk].
Qed.

(** Property X11.  On the default strategies, for a distance that is not
    negative and a finite positive weight, the transport cost is not
    negative, the delivery total is at least the base courier charge,
    and so is the shipping charge, whatever the speed. *)
Theorem charge_at_least_base (P : Platform) (sp : DeliverySpeed) (d w : f64)
  (r : ShippingChargeResult) :
  fleb (of_Z 0) d = true ->
  fltb (of_Z 0) w = true -> is_finite w = true ->
  charge_for_distance P factory_init sp d w = Ok r ->
  fleb (of_Z 0) (transport_cost r) = true
  /\ fleb BASE_COURIER_CHARGE (total (delivery_cost r)) = true
  /\ fleb BASE_COURIER_CHARGE (shipping_charge r) = true.
Proof.
  intros Hd Hw Hf Hr.
  destruct (positive_finite w Hw Hf) as (k & -> & Hk).
  apply charge_for_distance_ok in Hr as (s & Hg & ->).
  cbn [transport_cost delivery_cost shipping_charge].
  destruct (default_rate_positive s (get_strategy_init_member P d s Hg)) as (c & Hr & Hc).
  rewrite of_Z_0 in Hd |- *.
  pose proof (transport_cost_nonneg s c k d Hr Hc Hk Hd) as Htc.
  unfold calculate_cost in Htc. cbn [cr_transport_cost] in Htc.
  pose proof (delivery_total_at_least_base sp k Hk) as Ht.
  pose proof (fleb_trans _ _ _ base_charge_nonneg Ht) as Ht0.
  split; [exact Htc|]. split; [exact Ht|].
  rewrite <- base_charge_rounded at 1. apply round2_mono.
  apply fleb_trans
    with (fadd (Fin false 0) (total (_calculate_delivery_cost sp (Fin false k)))).
  - apply fadd_mono_r; [exact Ht| |]; apply fadd_nonneg_not_nan;
      try exact Ht0; try exact base_charge_nonneg; reflexivity.
  - rewrite (fadd_comm (Fin false 0)), (fadd_comm (round2 _)).
    apply fadd_mono_r; [exact Htc| |]; apply fadd_nonneg_not_nan;
      try exact Ht0; try exact Htc; reflexivity.
Qed.

Lemma charge_at_least_base_witness :
  exists r,
    charge_for_distance small_angle factory_init EXPRESS (of_Z 200) (of_Z 5) = Ok r
    /\ fleb BASE_COURIER_CHARGE (shipping_charge r) = true.
Proof.
  assert (E : exists r,
             charge_for_distance small_angle factory_init EXPRESS (of_Z 200) (of_Z 5)
             = Ok r).
  { vm_compute. eexists. reflexivity. }
  destruct E as [r E]. exists r. split; [exact E|].
  refine (proj2 (proj2 (charge_at_least_base small_angle EXPRESS (of_Z 200) (of_Z 5) r
                   _ _ _ E))); vm_compute; reflexivity.
Defined.

(** ** Errors of [calculate_total] *)

(** Property X12.  [calculate_total] looks the product up first, then the
    seller and the warehouses, and reads the delivery speed only
    after a warehouse was found: an unknown product is reported
    whatever else is wrong, an unknown seller or an empty warehouse
    repository is reported even with an invalid speed, and an invalid
    speed is reported before an unknown customer. *)
Theorem calculate_total_error_order (P : Platform) (svc : ShippingChargeService)
  (sid cid pid : Z) (s : string) :
  (get_by_id (_product_repo svc) pid = None ->
   calculate_total P svc sid cid pid s
   = Raise (NotFoundError ("Product with ID " ++ str_int pid ++ " not found")))
  /\ (forall p, get_by_id (_product_repo svc) pid = Some p ->
      (get_by_id (ws_seller_repo (_warehouse_service svc)) sid = None ->
       calculate_total P svc sid cid pid s
       = Raise (NotFoundError ("Seller with ID " ++ str_int sid ++ " not found")))
      /\ (forall se, get_by_id (ws_seller_repo (_warehouse_service svc)) sid = Some se ->
          get_all (ws_warehouse_repo (_warehouse_service svc)) = [] ->
          calculate_total P svc sid cid pid s
          = Raise (NotFoundError "No warehouses available in the system"))
      /\ (forall m, find_nearest_warehouse P (_warehouse_service svc) sid = Ok (None, m) ->
          calculate_total P svc sid cid pid s
          = Raise (AttributeError "'NoneType' object has no attribute 'warehouse_id'"))
      /\ (forall w m, find_nearest_warehouse P (_warehouse_service svc) sid = Ok (Some w, m) ->
          lower s <> "standard"%string -> lower s <> "express"%string ->
          calculate_total P svc sid cid pid s
          = Raise (ValidationError
                     ("Invalid delivery speed '" ++ s
                      ++ "'. Supported speeds: ['standard', 'express']")))).
Proof.
  unfold calculate_total. split; [intros ->; reflexivity|].
  intros p ->. split; [|split; [|split]].
  - intros E. unfold find_nearest_warehouse. rewrite E. reflexivity.
  - intros se E1 E2. unfold find_nearest_warehouse. rewrite E1, E2. reflexivity.
  - intros m ->. reflexivity.
  - intros w m -> N1 N2. cbn [bind]. unfold calculate_from_warehouse.
    rewrite (validate_speed_error s N1 N2). reflexivity.
Qed.

Lemma calculate_total_error_order_witness :
  calculate_total small_angle seed_service 7 7 1 "overnight"
  = Raise (NotFoundError ("Seller with ID " ++ str_int 7 ++ " not found")).
Proof.
  destruct (calculate_total_error_order small_angle seed_service 7 7 1 "overnight")
    as [_ H].
  destruct (H rice_pack eq_refl) as [Hs _]. apply Hs. reflexivity.
Defined.

(** *** What a 404 and a 400 can be about *)

Lemma math_1_raises (f : f64 -> f64) (x : f64) (e : exn) :
  math_1 f x = Raise e -> status_code e = None.
Proof.
  unfold math_1. destruct (_ && _); [intros H; injection H as <-; reflexivity|].
  destruct (_ && _); [intros H; injection H as <-; reflexivity|intros H; discriminate H].
Qed.

Lemma math_2_raises (f : f64 -> f64 -> f64) (x y : f64) (e : exn) :
  math_2 f x y = Raise e -> status_code e = None.
Proof.
  unfold math_2. destruct (_ && _); [intros H; injection H as <-; reflexivity|].
  destruct (_ && _); [intros H; injection H as <-; reflexivity|intros H; discriminate H].
Qed.

Lemma float_pow_2_raises (P : Platform) (x : f64) (e : exn) :
  float_pow_2 P x = Raise e -> status_code e = None.
Proof.
  unfold float_pow_2. destruct x as [|s|s k]; try (intros H; discriminate H).
  destruct (k =? 0)%N; [intros H; discriminate H|].
  destruct (Z.of_N k =? scale); [intros H; discriminate H|].
  destruct (is_inf _); [intros H; injection H as <-; reflexivity|intros H; discriminate H].
Qed.

Lemma calculate_raises (P : Platform) (a b : Location) (e : exn) :
  calculate P a b = Raise e -> status_code e = None.
Proof.
  unfold calculate, bind, math_sin, math_cos, math_sqrt, math_atan2.
  repeat match goal with
         | |- match ?m with Ok _ => _ | Raise _ => _ end = Raise e -> _ =>
             let E := fresh "E" in
             destruct m eqn:E;
             [|intros H; injection H as <-;
               first [ eapply math_1_raises; exact E
                     | eapply math_2_raises; exact E
                     | eapply float_pow_2_raises; exact E ]]
         end.
  intros H. discriminate H.
Qed.

Lemma nearest_loop_raises (P : Platform) (origin : Location) (ws : list Warehouse) :
  forall n0 m0 e, nearest_loop P origin ws n0 m0 = Raise e -> status_code e = None.
Proof.
  induction ws as [|w rest IH]; intros n0 m0 e; cbn [nearest_loop].
  - intros H. discriminate H.
  - destruct (calculate P origin (w_location w)) as [d|e0] eqn:Ec; cbn [bind].
    + destruct (fltb d m0); apply IH.
    + intros H. injection H as <-. apply (calculate_raises _ _ _ _ Ec).
Qed.

Lemma get_strategy_raises (P : Platform) (f : ShippingStrategyFactory) (d : f64) (e : exn) :
  get_strategy P f d = Raise e -> status_code e = None.
Proof.
  unfold get_strategy, last_item. destruct (fltb d (of_Z 0)).
  - intros H. injection H as <-. reflexivity.
  - destruct (find _ _); [intros H; discriminate H|].
    destruct (rev _); intros H; [injection H as <-; reflexivity|discriminate H].
Qed.

(** Property X13.  When the two services share their repositories, a 404 from
    [calculate_total] is about the product, the seller, the absence
    of warehouses or the customer, never about the warehouse, which
    was just taken from the repository; and a 400 is about the
    delivery speed. *)
Theorem calculate_total_application_errors (P : Platform) (repos : Repositories)
  (sid cid pid : Z) (s : string) (e : exn) :
  keyed (warehouse repos) ->
  calculate_total P (make_shipping_charge_service repos) sid cid pid s = Raise e ->
  (status_code e = Some 404 ->
   (get_by_id (product repos) pid = None
    /\ e = NotFoundError ("Product with ID " ++ str_int pid ++ " not found"))
   \/ (get_by_id (seller repos) sid = None
       /\ e = NotFoundError ("Seller with ID " ++ str_int sid ++ " not found"))
   \/ (get_all (warehouse repos) = []
       /\ e = NotFoundError "No warehouses available in the system")
   \/ (get_by_id (customer repos) cid = None
       /\ e = NotFoundError ("Customer with ID " ++ str_int cid ++ " not found")))
  /\ (status_code e = Some 400 ->
      lower s <> "standard"%string /\ lower s <> "express"%string
      /\ e = ValidationError
               ("Invalid delivery speed '" ++ s
                ++ "'. Supported speeds: ['standard', 'express']")).
Proof.
  intros K. unfold calculate_total.
  cbn [make_shipping_charge_service _product_repo _warehouse_service].
  destruct (get_by_id (product repos) pid) as [p|] eqn:Ep.
  2:{ intros H. injection H as <-. split; [|intros C; discriminate C].
      intros _. left. split; reflexivity. }
  destruct (find_nearest_warehouse P (make_warehouse_service repos) sid)
    as [[[w|] m]|e0] eqn:En; cbn [bind].
  - (* a warehouse was found *)
    pose proof (find_nearest_warehouse_in _ _ _ _ _ En) as Hin.
    cbn [make_warehouse_service ws_warehouse_repo] in Hin.
    pose proof (keyed_lookup _ _ K Hin) as Hlook.
    change (_get_id w) with (warehouse_id w) in Hlook.
    fold (make_shipping_charge_service repos).
    unfold calculate_from_warehouse.
    cbn [make_shipping_charge_service _warehouse_repo _customer_repo _product_repo
         _strategy_factory].
    rewrite Hlook, Ep.
    unfold _validate_delivery_speed, DeliverySpeed_of_value.
    destruct (String.eqb_spec (lower s) "standard") as [E1|N1];
      [|destruct (String.eqb_spec (lower s) "express") as [E2|N2]]; cbn [bind].
    3:{ intros H. injection H as <-. split; [intros C; discriminate C|].
        intros _. split; [exact N1|]. split; [exact N2|reflexivity]. }
    all: destruct (get_by_id (customer repos) cid) as [cu|] eqn:Ecu;
      [|intros H; injection H as <-; split; [|intros C; discriminate C];
        intros _; right; right; right; split; reflexivity].
    all: destruct (calculate P (w_location w) (c_location cu)) as [dist|e1] eqn:Ed;
      cbn [bind];
      [|intros H; injection H as <-; rewrite (calculate_raises _ _ _ _ Ed);
        split; intros C; discriminate C].
    all: unfold charge_for_distance;
      destruct (get_strategy P factory_init dist) as [st|e2] eqn:Eg; cbn [bind];
      [intros H; discriminate H|].
    all: intros H; injection H as <-; rewrite (get_strategy_raises _ _ _ _ Eg);
      split; intros C; discriminate C.
  - intros H. injection H as <-. split; intros C; discriminate C.
  - intros H. injection H as <-. unfold find_nearest_warehouse in En.
    cbn [make_warehouse_service ws_seller_repo ws_warehouse_repo] in En.
    destruct (get_by_id (seller repos) sid) as [se|] eqn:Es.
    2:{ injection En as <-. split; [|intros C; discriminate C].
        intros _. right. left. split; reflexivity. }
    destruct (get_all (warehouse repos)) as [|w0 rest] eqn:Ew.
    + injection En as <-. split; [|intros C; discriminate C].
      intros _. right. right. left. split; reflexivity.
    + rewrite (nearest_loop_raises _ _ _ _ _ _ En). split; intros C; discriminate C.
Qed.

Lemma calculate_total_application_errors_witness :
  calculate_total small_angle (make_shipping_charge_service seed_repositories) 1 9 1
    "express"
  = Raise (NotFoundError ("Customer with ID " ++ str_int 9 ++ " not found")).
Proof.
  assert (E : exists e,
             calculate_total small_angle (make_shipping_charge_service seed_repositories)
               1 9 1 "express" = Raise e /\ status_code e = Some 404).
  { vm_compute. eexists. split; reflexivity. }
  destruct E as (e & E & C). rewrite E.
  destruct (calculate_total_application_errors small_angle seed_repositories 1 9 1
              "express" e seed_keyed E) as [H _].
  destruct (H C) as [[A _]|[[A _]|[[A _]|[_ ->]]]];
    [discriminate A|discriminate A|discriminate A|reflexivity].
Defined.

(** ** The delivery speed *)

Lemma lower_ascii_idempotent (c : ascii) : lower_ascii (lower_ascii c) = lower_ascii c.
Proof.
  destruct c as [[] [] [] [] [] [] [] []]; reflexivity.
Qed.

Lemma lower_idempotent (s : string) : lower (lower s) = lower s.
Proof.
  induction s as [|c s IH]; cbn [lower]; [reflexivity|].
  rewrite lower_ascii_idempotent, IH. reflexivity.
Qed.

(** Property X14.  Two spellings with the same lowered form are
    treated alike.  If one is accepted as a speed, so is the other,
    [calculate_from_warehouse] has the same outcome for both, result
    or error, and a result records the lowered form as its speed.  If
    one is rejected, both are, each with the [ValidationError] that
    quotes its own spelling.  A string's lowered form is accepted
    exactly when the string is, and each speed's own value is
    accepted as that speed. *)
Theorem speed_read_through_lower (P : Platform) (svc : ShippingChargeService)
  (wid cid pid : Z) (s s' : string) :
  lower s = lower s' ->
  (forall sp, _validate_delivery_speed s = Ok sp ->
     _validate_delivery_speed s' = Ok sp
     /\ calculate_from_warehouse P svc wid cid pid s'
        = calculate_from_warehouse P svc wid cid pid s)
  /\ (forall r, calculate_from_warehouse P svc wid cid pid s = Ok r ->
      calculate_from_warehouse P svc wid cid pid s' = Ok r
      /\ speed (delivery_cost r) = lower s)
  /\ (forall e, _validate_delivery_speed s = Raise e ->
      calculate_from_warehouse P svc wid cid pid s
      = Raise (ValidationError
                 ("Invalid delivery speed '" ++ s
                  ++ "'. Supported speeds: ['standard', 'express']"))
      /\ calculate_from_warehouse P svc wid cid pid s'
         = Raise (ValidationError
                    ("Invalid delivery speed '" ++ s'
                     ++ "'. Supported speeds: ['standard', 'express']")))
  /\ (forall sp, _validate_delivery_speed (lower s) = Ok sp
                 <-> _validate_delivery_speed s = Ok sp)
  /\ (forall sp, _validate_delivery_speed (speed_value sp) = Ok sp).
Proof.
  intros El.
  assert (A : forall sp, _validate_delivery_speed s = Ok sp ->
                         _validate_delivery_speed s' = Ok sp).
  { intros sp Hsp. apply validate_speed_ok. rewrite <- El.
    apply validate_speed_ok. exact Hsp. }
  assert (B : forall sp, _validate_delivery_speed s = Ok sp ->
     calculate_from_warehouse P svc wid cid pid s'
     = calculate_from_warehouse P svc wid cid pid s).
  { intros sp Hsp. unfold calculate_from_warehouse. rewrite (A sp Hsp), Hsp. reflexivity. }
  split; [intros sp Hsp; split; [apply A; exact Hsp|apply (B sp); exact Hsp]|].
  split; [|split; [|split]].
  - intros r H. pose proof H as H0.
    apply calculate_from_warehouse_ok in H
      as (sp & wh & cu & pr & dist & Hsp & _ & _ & _ & _ & Hch).
    apply charge_for_distance_ok in Hch as (st & _ & Hr).
    split; [rewrite (B sp Hsp); exact H0|].
    rewrite Hr. cbn [delivery_cost]. unfold _calculate_delivery_cost. cbn [speed].
    symmetry. apply validate_speed_ok. exact Hsp.
  - intros e He.
    assert (N : forall sp, lower s <> speed_value sp).
    { intros sp E. apply validate_speed_ok in E. rewrite E in He. discriminate He. }
    unfold calculate_from_warehouse.
    rewrite (validate_speed_error s (N STANDARD) (N EXPRESS)).
    rewrite (validate_speed_error s'); [split; reflexivity| |]; rewrite <- El.
    + exact (N STANDARD).
    + exact (N EXPRESS).
  - intros sp. rewrite !validate_speed_ok, lower_idempotent. reflexivity.
  - intros sp0. destruct sp0; reflexivity.
Qed.

Lemma speed_read_through_lower_witness :
  exists r,
    calculate_from_warehouse small_angle seed_service 1 1 1 "ExPress" = Ok r
    /\ calculate_from_warehouse small_angle seed_service 1 1 1 "EXPRESS" = Ok r
    /\ speed (delivery_cost r) = "express"%string.
Proof.
  assert (E : exists r,
             calculate_from_warehouse small_angle seed_service 1 1 1 "ExPress" = Ok r).
  { vm_compute. eexists. reflexivity. }
  destruct E as [r E]. exists r. split; [exact E|].
  destruct (speed_read_through_lower small_angle seed_service 1 1 1 "ExPress" "EXPRESS"
              eq_refl) as (_ & H & _).
  destruct (H r E) as [H1 H2]. split; [exact H1|exact H2].
Defined.

(** ** The nearest warehouse, without assuming finite distances *)

Lemma fltb_false_below (d m m' : f64) :
  fleb m' m = true -> fltb d m = false -> fltb d m' = false.
Proof.
  intros Hle Hlt. destruct (fltb d m') eqn:E; [|reflexivity].
  rewrite (fltb_fleb_trans _ _ _ E Hle) in Hlt. discriminate Hlt.
Qed.

Lemma nearest_loop_unbeaten (P : Platform) (origin : Location) (ws : list Warehouse) :
  forall n0 m0 n m,
  is_nan m0 = false ->
  nearest_loop P origin ws n0 m0 = Ok (n, m) ->
  fleb m m0 = true
  /\ (forall w, In w ws ->
      exists d, calculate P origin (w_location w) = Ok d /\ fltb d m = false)
  /\ ((n = n0 /\ m = m0)
      \/ exists w, n = Some w /\ In w ws
                   /\ calculate P origin (w_location w) = Ok m /\ fltb m m0 = true).
Proof.
  induction ws as [|w rest IH]; intros n0 m0 n m Hm; cbn [nearest_loop].
  - intros H. apply Ok_inj in H. injection H as <- <-.
    split; [apply fleb_refl; exact Hm|]. split; [intros ? []|]. left. split; reflexivity.
  - destruct (calculate P origin (w_location w)) as [d|e] eqn:Ec; cbn [bind];
      [|intros H; discriminate H].
    destruct (fltb d m0) eqn:Hlt; intros H.
    + pose proof (proj1 (fltb_not_nan _ _ Hlt)) as Hdn.
      destruct (IH _ _ _ _ Hdn H) as (Hle & Hall & Hcase).
      split; [apply fleb_trans with d; [exact Hle|apply fltb_fleb; exact Hlt]|].
      split.
      * intros w' [<-|Hin]; [|apply Hall; exact Hin].
        exists d. split; [exact Ec|]. apply fleb_fltb_false. exact Hle.
      * right. destruct Hcase as [[-> ->]|(w1 & -> & Hin & Hc1 & Hlt1)].
        -- exists w. split; [reflexivity|]. split; [left; reflexivity|].
           split; [exact Ec|exact Hlt].
        -- exists w1. split; [reflexivity|]. split; [right; exact Hin|].
           split; [exact Hc1|apply (fltb_trans _ _ _ Hlt1 Hlt)].
    + destruct (IH _ _ _ _ Hm H) as (Hle & Hall & Hcase).
      split; [exact Hle|]. split.
      * intros w' [<-|Hin]; [|apply Hall; exact Hin].
        exists d. split; [exact Ec|]. apply (fltb_false_below d m0 m Hle Hlt).
      * destruct Hcase as [[-> ->]|(w1 & -> & Hin & Hc1 & Hlt1)].
        -- left. split; reflexivity.
        -- right. exists w1. split; [reflexivity|]. split; [right; exact Hin|].
           split; [exact Hc1|exact Hlt1].
Qed.

(** Property X15.  Whenever [find_nearest_warehouse] returns, the seller
    exists, every warehouse's distance was computed without an error
    and none is strictly below the distance returned; the warehouse
    returned is one of the repository at exactly that distance, which
    is below infinity.  No warehouse is returned, with the distance
    infinity, only when no distance is below infinity. *)
Theorem find_nearest_warehouse_unbeaten (P : Platform) (svc : WarehouseService) (sid : Z)
  (n : option Warehouse) (m : f64) :
  find_nearest_warehouse P svc sid = Ok (n, m) ->
  exists se,
    get_by_id (ws_seller_repo svc) sid = Some se
    /\ (forall w, In w (get_all (ws_warehouse_repo svc)) ->
        exists d, calculate P (s_location se) (w_location w) = Ok d /\ fltb d m = false)
    /\ match n with
       | Some w =>
           In w (get_all (ws_warehouse_repo svc))
           /\ calculate P (s_location se) (w_location w) = Ok m
           /\ fltb m (Inf false) = true
       | None => m = Inf false
       end.
Proof.
  unfold find_nearest_warehouse.
  destruct (get_by_id (ws_seller_repo svc) sid) as [se|]; [|intros H; discriminate H].
  destruct (get_all (ws_warehouse_repo svc)) as [|w0 rest] eqn:Ew;
    [intros H; discriminate H|].
  intros H. exists se. split; [reflexivity|].
  destruct (nearest_loop_unbeaten P (s_location se) (w0 :: rest) None (Inf false) n m
              eq_refl H) as (_ & Hall & Hcase).
  split; [exact Hall|].
  destruct Hcase as [[-> ->]|(w & -> & Hin & Hc & Hlt)]; [reflexivity|].
  split; [exact Hin|]. split; [exact Hc|exact Hlt].
Qed.

Lemma find_nearest_warehouse_unbeaten_witness :
  exists w m,
    find_nearest_warehouse small_angle (make_warehouse_service seed_repositories) 1
    = Ok (Some w, m)
    /\ In w (get_all (warehouse seed_repositories)).
Proof.
  assert (E : exists w m,
             find_nearest_warehouse small_angle (make_warehouse_service seed_repositories) 1
             = Ok (Some w, m)).
  { vm_compute. do 2 eexists. reflexivity. }
  destruct E as (w & m & E). exists w, m. split; [exact E|].
  destruct (find_nearest_warehouse_unbeaten _ _ _ _ _ E) as (se & _ & _ & Hin & _).
  exact Hin.
Defined.

(** Property X16.  The nearest warehouse can be fetched back: with a keyed
    warehouse repository, [get_warehouse] on the id of the warehouse
    [find_nearest_warehouse] returned gives that warehouse; and
    [get_warehouse] raises [NotFoundError] exactly for the ids that
    are not stored. *)
Theorem nearest_warehouse_is_fetchable (P : Platform) (svc : WarehouseService) (sid : Z)
  (w : Warehouse) (m : f64) :
  keyed (ws_warehouse_repo svc) ->
  find_nearest_warehouse P svc sid = Ok (Some w, m) ->
  get_warehouse svc (warehouse_id w) = Ok w
  /\ (forall wid, exists_ (ws_warehouse_repo svc) wid = false <->
      get_warehouse svc wid
      = Raise (NotFoundError ("Warehouse with ID " ++ str_int wid ++ " not found"))).
Proof.
  intros K H. apply find_nearest_warehouse_in in H.
  pose proof (keyed_lookup _ _ K H) as Hl.
  change (_get_id w) with (warehouse_id w) in Hl.
  unfold get_warehouse, exists_, get_by_id in *. split; [rewrite Hl; reflexivity|].
  intros wid. destruct (dict_get (ws_warehouse_repo svc) wid).
  - split; intros C; discriminate C.
  - split; reflexivity.
Qed.

Lemma nearest_warehouse_is_fetchable_witness :
  exists w m,
    find_nearest_warehouse small_angle (make_warehouse_service seed_repositories) 1
    = Ok (Some w, m)
    /\ get_warehouse (make_warehouse_service seed_repositories) (warehouse_id w) = Ok w.
Proof.
  assert (E : exists w m,
             find_nearest_warehouse small_angle (make_warehouse_service seed_repositories) 1
             = Ok (Some w, m)).
  { vm_compute. do 2 eexists. reflexivity. }
  destruct E as (w & m & E). exists w, m. split; [exact E|].
  exact (proj1 (nearest_warehouse_is_fetchable small_angle
                  (make_warehouse_service seed_repositories) 1 w m seed_keyed E)).
Defined.

(** ** Validation of the entities *)

Lemma range_is_finite (lo hi : N) (x : f64) :
  fleb (Fin true lo) x && fleb x (Fin false hi) = true -> is_finite x = true.
Proof.
  destruct x as [|s|s k]; [intros H; discriminate H| |reflexivity].
  destruct s; intros H; discriminate H.
Qed.

(** Property X17.  A [Location] is built exactly from a latitude within
    [-90, 90] and a longitude within [-180, 180], and then holds
    these two floats, both finite: nan and the infinities are
    refused; and a bad latitude is reported whatever the longitude. *)
Theorem Location_init_accepts_valid (P : Platform) (la lo : f64) :
  (forall l, Location_init P la lo = Ok l <->
             l = {| lat := la; lng := lo |} /\ valid_location l = true)
  /\ (forall l, Location_init P la lo = Ok l ->
      is_finite (lat l) = true /\ is_finite (lng l) = true)
  /\ (fleb (of_Z (-90)) la && fleb la (of_Z 90) = false ->
      Location_init P la lo
      = Raise (ValueError ("Latitude must be between -90 and 90, got " ++ repr_float P la))).
Proof.
  assert (A : forall l, Location_init P la lo = Ok l <->
                        l = {| lat := la; lng := lo |} /\ valid_location l = true).
  { intros l. unfold Location_init, valid_location.
    destruct (fleb (of_Z (-90)) la && fleb la (of_Z 90)) eqn:E1; cbn [negb].
    - destruct (fleb (of_Z (-180)) lo && fleb lo (of_Z 180)) eqn:E2; cbn [negb].
      + split.
        * intros H. apply Ok_inj in H. subst l. cbn [lat lng]. split; [reflexivity|].
          rewrite <- andb_assoc, E1, E2. reflexivity.
        * intros [-> _]. reflexivity.
      + split; [intros H; discriminate H|]. intros [-> H]. cbn [lat lng] in H.
        rewrite <- andb_assoc, E1, E2 in H. discriminate H.
    - split; [intros H; discriminate H|]. intros [-> H]. cbn [lat lng] in H.
      rewrite <- andb_assoc, E1 in H. discriminate H. }
  split; [exact A|]. split.
  - intros l H. apply A in H as [-> H]. cbn [lat lng]. unfold valid_location in H.
    cbn [lat lng] in H. rewrite <- andb_assoc in H. apply andb_true_iff in H as [H1 H2].
    destruct degrees_fin as (K & kd & E1 & E2 & E3 & E4 & _).
    rewrite E3, E4 in H1. rewrite E1, E2 in H2.
    split; [apply (range_is_finite _ _ _ H1)|apply (range_is_finite _ _ _ H2)].
  - intros E. unfold Location_init. rewrite E. reflexivity.
Qed.

(** Property X18.  A [Product] is refused only for a price below zero or a
    weight that is at most zero, the price first; so a weight that
    was accepted and is not nan is strictly positive, while nan
    passes both tests, as price and as weight. *)
Theorem Product_init_checks (P : Platform) (i : Z) (n : string) (pr w : f64)
  (d : option Dimensions) :
  (forall p, Product_init P i n pr w d = Ok p <->
             p = {| product_id := i; p_name := n; price := pr; weight_kg := w;
                    dimensions := d |}
             /\ valid_product p = true)
  /\ (forall p, Product_init P i n pr w d = Ok p -> is_nan w = false ->
      fltb (of_Z 0) (weight_kg p) = true)
  /\ (fltb pr (of_Z 0) = true ->
      Product_init P i n pr w d
      = Raise (ValueError ("Price cannot be negative, got " ++ repr_float P pr)))
  /\ Product_init P i n NaN NaN d
     = Ok {| product_id := i; p_name := n; price := NaN; weight_kg := NaN;
             dimensions := d |}.
Proof.
  assert (A : forall p, Product_init P i n pr w d = Ok p <->
             p = {| product_id := i; p_name := n; price := pr; weight_kg := w;
                    dimensions := d |}
             /\ valid_product p = true).
  { intros p. unfold Product_init, valid_product.
    destruct (fltb pr (of_Z 0)) eqn:E1.
    - split; [intros H; discriminate H|]. intros [-> H]. cbn [price weight_kg] in H.
      rewrite E1 in H. discriminate H.
    - destruct (fleb w (of_Z 0)) eqn:E2.
      + split; [intros H; discriminate H|]. intros [-> H]. cbn [price weight_kg] in H.
        rewrite E1, E2 in H. discriminate H.
      + split.
        * intros H. apply Ok_inj in H. subst p. cbn [price weight_kg].
          rewrite E1, E2. split; reflexivity.
        * intros [-> _]. reflexivity. }
  split; [exact A|]. split; [|split].
  - intros p H Hn. apply A in H as [-> H]. cbn [weight_kg].
    unfold valid_product in H. cbn [price weight_kg] in H.
    apply andb_true_iff in H as [_ H]. apply negb_true_iff in H.
    rewrite of_Z_0 in H |- *.
    rewrite (fltb_negb_fleb (Fin false 0) w eq_refl Hn), H. reflexivity.
  - intros E. unfold Product_init. rewrite E. reflexivity.
  - reflexivity.
Qed.

Lemma Product_init_checks_witness :
  fltb (of_Z 0) (of_Z 5) = true.
Proof.
  destruct (Product_init_checks small_angle 1 "Rice (5kg Pack)" (of_Z 350) (of_Z 5) None)
    as (_ & H & _).
  apply (H rice_pack); vm_compute; reflexivity.
Defined.

(** Property X19.  [calculate_from_coords] raises the [ValueError] of the
    first point before looking at the second, and on two valid pairs
    of coordinates it is [calculate] on the two locations, so the
    distance of a valid point to itself is what [calculate] gives. *)
Theorem calculate_from_coords_validates (P : Platform) (lat1 lng1 lat2 lng2 : f64) :
  (forall e, Location_init P lat1 lng1 = Raise e ->
             calculate_from_coords P lat1 lng1 lat2 lng2 = Raise e)
  /\ (forall l1 e, Location_init P lat1 lng1 = Ok l1 ->
      Location_init P lat2 lng2 = Raise e ->
      calculate_from_coords P lat1 lng1 lat2 lng2 = Raise e)
  /\ (valid_location {| lat := lat1; lng := lng1 |} = true ->
      valid_location {| lat := lat2; lng := lng2 |} = true ->
      calculate_from_coords P lat1 lng1 lat2 lng2
      = calculate P {| lat := lat1; lng := lng1 |} {| lat := lat2; lng := lng2 |})
  /\ (forall d, calculate_from_coords P lat1 lng1 lat2 lng2 = Ok d ->
      valid_location {| lat := lat1; lng := lng1 |} = true
      /\ valid_location {| lat := lat2; lng := lng2 |} = true).
Proof.
  unfold calculate_from_coords, Location_init, valid_location. cbn [lat lng].
  split; [|split; [|split]].
  - intros e ->. reflexivity.
  - intros l1 e -> ->. reflexivity.
  - intros H1 H2. rewrite <- andb_assoc in H1, H2.
    apply andb_true_iff in H1 as [-> ->]. apply andb_true_iff in H2 as [-> ->].
    reflexivity.
  - intros d.
    destruct (fleb (of_Z (-90)) lat1), (fleb lat1 (of_Z 90)),
             (fleb (of_Z (-180)) lng1), (fleb lng1 (of_Z 180));
      cbn [negb bind andb];
      try match goal with |- Raise _ = Ok _ -> _ => intros H; discriminate H end.
    destruct (fleb (of_Z (-90)) lat2), (fleb lat2 (of_Z 90)),
             (fleb (of_Z (-180)) lng2), (fleb lng2 (of_Z 180));
      cbn [negb bind andb];
      try match goal with |- Raise _ = Ok _ -> _ => intros H; discriminate H end.
    intros _. split; reflexivity.
Qed.

(** ** Searching the customers and the products *)

(** Property X20.  [find_by_phone] returns the first customer, in the order
    of insertion, that has the phone number, and [None] exactly when
    no stored customer has it. *)
Theorem find_by_phone_first_match (st : store Customer) (phone : string) :
  (forall c, find_by_phone st phone = Some c ->
     c_phone c = phone
     /\ exists before after,
          get_all st = before ++ c :: after
          /\ Forall (fun c' => c_phone c' <> phone) before)
  /\ (find_by_phone st phone = None <->
      forall c, In c (get_all st) -> c_phone c <> phone).
Proof.
  unfold find_by_phone, get_all. induction (map snd st) as [|c0 l [IH1 IH2]]; cbn [find].
  - split; [intros c H; discriminate H|]. split; [intros _ c []|reflexivity].
  - destruct (String.eqb_spec (c_phone c0) phone) as [E|N].
    + split.
      * intros c H. injection H as <-. split; [exact E|].
        exists [], l. split; [reflexivity|constructor].
      * split; [intros H; discriminate H|]. intros H. exfalso.
        apply (H c0 (or_introl eq_refl) E).
    + split.
      * intros c H. destruct (IH1 c H) as (Hp & l1 & l2 & -> & Hf).
        split; [exact Hp|]. exists (c0 :: l1), l2. split; [reflexivity|].
        constructor; assumption.
      * rewrite IH2. split.
        -- intros H c [<-|Hin]; [exact N|apply H; exact Hin].
        -- intros H c Hin. apply H. right. exact Hin.
Qed.

Lemma filter_incl_mono {A : Type} (p q : A -> bool) (l : list A) :
  (forall a, p a = true -> q a = true) -> incl (filter p l) (filter q l).
Proof.
  intros Hpq a Ha. apply filter_In in Ha as [Hin Hp]. apply filter_In.
  split; [exact Hin|apply Hpq; exact Hp].
Qed.

(** Property X21.  [find_by_max_weight] returns the stored products whose
    weight is at most the bound, never one whose weight is nan; a
    nan bound finds nothing, and a larger bound finds at least what
    a smaller one does. *)
Theorem find_by_max_weight_grows (st : store Product) (max1 max2 : f64) :
  fleb max1 max2 = true ->
  incl (find_by_max_weight st max1) (find_by_max_weight st max2)
  /\ (forall p, In p (find_by_max_weight st max2) <->
      In p (get_all st) /\ fleb (weight_kg p) max2 = true)
  /\ (forall p, In p (find_by_max_weight st max2) -> is_nan (weight_kg p) = false)
  /\ find_by_max_weight st NaN = [].
Proof.
  intros Hle. unfold find_by_max_weight, get_all. split; [|split; [|split]].
  - apply filter_incl_mono. intros p Hp. apply (fleb_trans _ _ _ Hp Hle).
  - intros p. apply filter_In.
  - intros p Hp. apply filter_In in Hp as [_ Hp]. apply (fleb_not_nan _ _ Hp).
  - induction (map snd st) as [|p l IH]; cbn [filter]; [reflexivity|].
    replace (fleb (weight_kg p) NaN) with false; [exact IH|].
    destruct (weight_kg p) as [|?|? ?]; reflexivity.
Qed.

Lemma find_by_max_weight_grows_witness :
  incl (find_by_max_weight (product seed_repositories) (of_Z 5))
       (find_by_max_weight (product seed_repositories) (of_Z 10)).
Proof.
  refine (proj1 (find_by_max_weight_grows (product seed_repositories) (of_Z 5) (of_Z 10)
                   _)).
  vm_compute. reflexivity.
Defined.

(** ** Weight and distance against the charge *)

Lemma fmul_nonneg_mono_r (x : f64) (k1 k2 : N) :
  fleb (Fin false 0) x = true -> (0 < k1)%N -> (k1 <= k2)%N ->
  fleb (fmul x (Fin false k1)) (fmul x (Fin false k2)) = true.
Proof.
  intros Hx H1 H2.
  destruct (nonneg_cases x Hx) as [->|(s & k & -> & Hs)].
  - unfold fmul. destruct (N.eqb_spec k1 0); [lia|]. destruct (N.eqb_spec k2 0); [lia|].
    reflexivity.
  - destruct (N.eq_dec k 0) as [->|Hk].
    + unfold fmul. change (Z.of_N 0) with 0. rewrite !Z.mul_0_l.
      rewrite rnd_mag_zero by exact scale_pos. apply fleb_refl. apply pack_not_nan.
    + assert (s = false) as -> by (destruct s; [unfold sval in Hs; lia|reflexivity]).
      apply fmul_mono_r; [lia|]. unfold fleb, sval. apply Z.leb_le. lia.
Qed.

Lemma delivery_total_mono (sp : DeliverySpeed) (k1 k2 : N) :
  (0 < k1)%N -> (k1 <= k2)%N ->
  fleb (total (_calculate_delivery_cost sp (Fin false k1)))
       (total (_calculate_delivery_cost sp (Fin false k2))) = true.
Proof.
  intros H1 H2. destruct sp.
  - rewrite !standard_total_any. apply fleb_refl.
    destruct base_charge_finite as [b ->]. reflexivity.
  - unfold _calculate_delivery_cost. cbn [total].
    destruct express_rate_positive as (c & Hc & Hcp).
    destruct base_charge_finite as (b & Hb).
    rewrite Hc, Hb.
    apply round2_mono. apply fadd_mono_r.
    + apply fmul_mono_r; [exact Hcp|]. unfold fleb, sval. apply Z.leb_le. lia.
    + unfold fmul, pack. cbn [xorb].
      destruct (_ <? top); [apply fadd_fin_not_nan|reflexivity].
    + unfold fmul, pack. cbn [xorb].
      destruct (_ <? top); [apply fadd_fin_not_nan|reflexivity].
Qed.

Lemma finite_between (w1 w2 : f64) :
  fltb (of_Z 0) w1 = true -> fleb w1 w2 = true -> is_finite w2 = true ->
  exists k1 k2, w1 = Fin false k1 /\ w2 = Fin false k2 /\ (0 < k1)%N /\ (k1 <= k2)%N.
Proof.
  rewrite of_Z_0. intros H0 H12 Hf.
  destruct w2 as [|s2|s2 k2]; try discriminate Hf.
  destruct w1 as [|s1|s1 k1]; try discriminate H12.
  - destruct s1; discriminate.
  - unfold fltb, fleb, sval in H0, H12. apply Z.ltb_lt in H0. apply Z.leb_le in H12.
    destruct s1; [lia|]. destruct s2; [lia|].
    exists k1, k2. repeat split; lia.
Qed.

(** Property X22.  At the same distance and speed, a heavier product never
    costs less: for a distance that is not negative and two finite
    positive weights [w1 <= w2], the transport cost, the delivery
    total and the shipping charge at [w2] are at least those at
    [w1]. *)
Theorem heavier_never_cheaper (P : Platform) (sp : DeliverySpeed) (d w1 w2 : f64)
  (r1 r2 : ShippingChargeResult) :
  fleb (of_Z 0) d = true ->
  fltb (of_Z 0) w1 = true -> fleb w1 w2 = true -> is_finite w2 = true ->
  charge_for_distance P factory_init sp d w1 = Ok r1 ->
  charge_for_distance P factory_init sp d w2 = Ok r2 ->
  fleb (transport_cost r1) (transport_cost r2) = true
  /\ fleb (total (delivery_cost r1)) (total (delivery_cost r2)) = true
  /\ fleb (shipping_charge r1) (shipping_charge r2) = true.
Proof.
  intros Hd H0 H12 Hf E1 E2.
  destruct (finite_between w1 w2 H0 H12 Hf) as (k1 & k2 & -> & -> & Hk1 & Hk).
  apply charge_for_distance_ok in E1 as (s & Hg & ->).
  apply charge_for_distance_ok in E2 as (s' & Hg' & ->).
  rewrite Hg in Hg'. apply Ok_inj in Hg'. subst s'.
  cbn [transport_cost delivery_cost shipping_charge].
  destruct (default_rate_positive s (get_strategy_init_member P d s Hg)) as (c & Hr & Hc).
  rewrite of_Z_0 in Hd.
  assert (Hk2 : (0 < k2)%N) by lia.
  pose proof (transport_cost_nonneg s c k1 d Hr Hc Hk1 Hd) as Hn1.
  pose proof (transport_cost_nonneg s c k2 d Hr Hc Hk2 Hd) as Hn2.
  unfold calculate_cost in Hn1, Hn2. cbn [cr_transport_cost] in Hn1, Hn2.
  assert (Hx : fleb (Fin false 0) (fmul d (rate_per_km_per_kg s)) = true).
  { rewrite Hr. rewrite <- (fmul_zero_l c). apply fmul_mono_l; assumption. }
  assert (Htc : fleb (round2 (fmul (fmul d (rate_per_km_per_kg s)) (Fin false k1)))
                     (round2 (fmul (fmul d (rate_per_km_per_kg s)) (Fin false k2)))
                = true).
  { apply round2_mono. apply fmul_nonneg_mono_r; assumption. }
  pose proof (delivery_total_mono sp k1 k2 Hk1 Hk) as Ht.
  pose proof (fleb_trans _ _ _ base_charge_nonneg (delivery_total_at_least_base sp k1 Hk1))
    as Ht1.
  pose proof (fleb_trans _ _ _ base_charge_nonneg (delivery_total_at_least_base sp k2 Hk2))
    as Ht2.
  split; [exact Htc|]. split; [exact Ht|].
  apply round2_mono.
  apply fleb_trans
    with (fadd (round2 (fmul (fmul d (rate_per_km_per_kg s)) (Fin false k1)))
               (total (_calculate_delivery_cost sp (Fin false k2)))).
  - apply fadd_mono_r; [exact Ht| |]; apply fadd_nonneg_not_nan; assumption.
  - rewrite (fadd_comm (round2 (fmul _ (Fin false k1)))),
            (fadd_comm (round2 (fmul _ (Fin false k2)))).
    apply fadd_mono_r; [exact Htc| |]; apply fadd_nonneg_not_nan; assumption.
Qed.

Lemma heavier_never_cheaper_witness :
  exists r1 r2,
    charge_for_distance small_angle factory_init EXPRESS (of_Z 200) (of_Z 5) = Ok r1
    /\ charge_for_distance small_angle factory_init EXPRESS (of_Z 200) (of_Z 6) = Ok r2
    /\ fleb (shipping_charge r1) (shipping_charge r2) = true.
Proof.
  assert (E1 : exists r,
             charge_for_distance small_angle factory_init EXPRESS (of_Z 200) (of_Z 5)
             = Ok r).
  { vm_compute. eexists. reflexivity. }
  assert (E2 : exists r,
             charge_for_distance small_angle factory_init EXPRESS (of_Z 200) (of_Z 6)
             = Ok r).
  { vm_compute. eexists. reflexivity. }
  destruct E1 as [r1 E1], E2 as [r2 E2]. exists r1, r2.
  split; [exact E1|]. split; [exact E2|].
  refine (proj2 (proj2 (heavier_never_cheaper small_angle EXPRESS (of_Z 200) (of_Z 5)
                          (of_Z 6) r1 r2 _ _ _ _ E1 E2))); vm_compute; reflexivity.
Defined.

(** *** Across the tier boundary *)

Lemma tier_boundary_products :
  fleb (fmul (of_ratio false 1005 10) (of_Z 2)) (fmul (of_Z 67) (of_Z 3)) = true
  /\ fleb (of_Z 0) (of_Z 67) = true
  /\ fltb (of_ratio false 1005 10) (of_Z 500) = true
  /\ (exists c, of_Z 2 = Fin false c /\ (0 < c)%N)
  /\ (exists c, of_Z 3 = Fin false c /\ (0 < c)%N).
Proof.
  vm_compute. repeat split; try reflexivity; eexists; split; reflexivity.
Qed.

(** Property X23.  The transport cost is not monotone in the distance across
    the first tier boundary: for every finite positive weight, any
    distance from 100 to 100.5 km goes by Truck and costs at most
    what any distance from 67 km to below 100 km costs by Mini
    Van. *)
Theorem farther_by_truck_not_dearer (P : Platform) (w d1 d2 : f64) :
  fleb (of_Z 67) d1 = true -> fltb d1 (of_Z 100) = true ->
  fleb (of_Z 100) d2 = true -> fleb d2 (of_ratio false 1005 10) = true ->
  fltb (of_Z 0) w = true -> is_finite w = true ->
  fltb d1 d2 = true
  /\ get_strategy P factory_init d1 = Ok MiniVanStrategy
  /\ get_strategy P factory_init d2 = Ok TruckStrategy
  /\ fleb (cr_transport_cost (calculate_cost TruckStrategy d2 w))
          (cr_transport_cost (calculate_cost MiniVanStrategy d1 w)) = true.
Proof.
  intros H67 H100 H100' H1005 Hw Hf.
  destruct tier_boundary_products as (Hprod & H067 & H500 & (c2 & E2 & Hc2) & (c3 & E3 & Hc3)).
  destruct (positive_finite w Hw Hf) as (k & -> & Hk).
  pose proof (fleb_trans _ _ _ H067 H67) as H0d1.
  pose proof (fltb_fleb_trans _ _ _ H100 H100') as H12.
  pose proof (fleb_trans _ _ _ H0d1 (fltb_fleb _ _ H12)) as H0d2.
  split; [exact H12|]. split; [|split].
  - rewrite get_strategy_init, (fleb_fltb_false _ _ H0d1), H0d1, H100. reflexivity.
  - rewrite get_strategy_init, (fleb_fltb_false _ _ H0d2), (fleb_fltb_false _ _ H100'),
      H100', (fleb_fltb_trans _ _ _ H1005 H500).
    rewrite andb_false_r. reflexivity.
  - unfold calculate_cost. cbn [cr_transport_cost].
    change (rate_per_km_per_kg TruckStrategy) with (of_Z 2).
    change (rate_per_km_per_kg MiniVanStrategy) with (of_Z 3).
    apply round2_mono. apply fmul_mono_l; [exact Hk|].
    apply fleb_trans with (fmul (of_ratio false 1005 10) (of_Z 2)).
    + rewrite E2. apply fmul_mono_l; [exact Hc2|exact H1005].
    + apply fleb_trans with (fmul (of_Z 67) (of_Z 3)); [exact Hprod|].
      rewrite E3. apply fmul_mono_l; [exact Hc3|exact H67].
Qed.

Lemma farther_by_truck_not_dearer_witness :
  fleb (cr_transport_cost (calculate_cost TruckStrategy (of_Z 100) (of_Z 5)))
       (cr_transport_cost (calculate_cost MiniVanStrategy (of_Z 99) (of_Z 5))) = true.
Proof.
  refine (proj2 (proj2 (proj2 (farther_by_truck_not_dearer small_angle (of_Z 5) (of_Z 99)
                                 (of_Z 100) _ _ _ _ _ _))));
    vm_compute; reflexivity.
Defined.

(** *** A registered strategy against the earlier ones *)

Lemma find_app_l {A : Type} (p : A -> bool) (l1 l2 : list A) (x : A) :
  find p l1 = Some x -> find p (l1 ++ l2) = Some x.
Proof.
  induction l1 as [|a l1 IH]; cbn; [discriminate|]. destruct (p a); [trivial|exact IH].
Qed.

Lemma find_app_r {A : Type} (p : A -> bool) (l1 l2 : list A) :
  find p l1 = None -> find p (l1 ++ l2) = find p l2.
Proof.
  induction l1 as [|a l1 IH]; cbn; [reflexivity|]. destruct (p a); [discriminate|exact IH].
Qed.

Lemma ascending_app_r (l1 l2 : list ShippingStrategy) :
  ascending (l1 ++ l2) -> ascending l2.
Proof.
  unfold ascending. induction l1 as [|a l1 IH]; cbn; [trivial|].
  intros H. inversion H; subst. apply IH. assumption.
Qed.

(** Property X24.  Registering never takes a distance away from the strategy
    that served it, unless the new strategy starts strictly earlier:
    on an ascending list, if [get_strategy] returned an applicable
    strategy for a distance and the registered strategy's
    [min_distance] is not smaller, the same strategy is returned
    after the registration. *)
Theorem registered_strategy_is_shadowed (P : Platform) (f : ShippingStrategyFactory)
  (d : f64) (s s' : ShippingStrategy) :
  ascending (_strategies f) ->
  get_strategy P f d = Ok s -> is_applicable s d = true ->
  fleb (min_distance s) (min_distance s') = true ->
  get_strategy P (register_strategy f s') d = Ok s.
Proof.
  intros Ha Hg Hap Hle. unfold get_strategy in Hg |- *.
  destruct (fltb d (of_Z 0)); [discriminate Hg|].
  unfold register_strategy. cbn [_strategies].
  rewrite (list_sort_append _ _ _ Ha).
  destruct (find (fun s => is_applicable s d) (_strategies f)) as [x|] eqn:Ef.
  2:{ exfalso. pose proof (last_item_in _ _ Hg) as Hin.
      rewrite (find_none_applicable _ _ _ Ef Hin) in Hap. discriminate Hap. }
  apply Ok_inj in Hg. subst x.
  destruct (sort_insert_split min_distance s' (_strategies f))
    as (l1 & l2 & El & -> & Hbefore & Hafter).
  rewrite El in Ef, Ha.
  destruct (find (fun s => is_applicable s d) l1) as [y|] eqn:E1.
  - rewrite (find_app_l _ _ _ _ E1) in Ef. rewrite (find_app_l _ _ _ _ E1).
    injection Ef as ->. reflexivity.
  - exfalso. rewrite (find_app_r _ _ _ E1) in Ef. apply find_some in Ef as [Hin _].
    apply ascending_app_r in Ha. destruct l2 as [|b l2]; [destruct Hin|].
    assert (Hbs : fleb (min_distance b) (min_distance s) = true).
    { destruct Hin as [<-|Hin].
      - apply fleb_refl. apply (proj2 (fltb_not_nan _ _ Hafter)).
      - inversion Ha as [|? ? _ Hall]; subst. rewrite Forall_forall in Hall.
        apply Hall. exact Hin. }
    pose proof (fltb_fleb_trans _ _ _ Hafter Hbs) as Hlt.
    rewrite (fleb_fltb_false _ _ Hle) in Hlt. discriminate Hlt.
Qed.

Lemma registered_strategy_is_shadowed_witness :
  get_strategy small_angle (register_strategy factory_init cargo_bike) (of_Z 50)
  = Ok MiniVanStrategy.
Proof.
  apply (registered_strategy_is_shadowed small_angle factory_init (of_Z 50)
           MiniVanStrategy cargo_bike factory_init_ascending);
    vm_compute; reflexivity.
Defined.

(** ** When [calculate_from_warehouse] returns *)

Lemma get_strategy_returns (P : Platform) (regs : list ShippingStrategy) (d : f64) :
  fltb d (of_Z 0) = false ->
  exists s, get_strategy P (fold_left register_strategy regs factory_init) d = Ok s.
Proof.
  intros E. unfold get_strategy. rewrite E.
  destruct (find _ _) as [s|]; [exists s; reflexivity|].
  apply (last_item_nonempty _ MiniVanStrategy).
  apply registrations_keep_strategies. left. reflexivity.
Qed.

(** Property X25.  With a valid speed, the three entities stored and a
    distance that was computed and is not negative,
    [calculate_from_warehouse] returns, whatever strategies were
    registered; the result carries that distance and the product's
    weight.  With a negative distance it raises the factory's
    [ValueError]. *)
Theorem calculate_from_warehouse_returns (P : Platform) (svc : ShippingChargeService)
  (regs : list ShippingStrategy) (wid cid pid : Z) (s : string)
  (sp : DeliverySpeed) (wh : Warehouse) (cu : Customer) (pr : Product) (dist : f64) :
  _strategy_factory svc = fold_left register_strategy regs factory_init ->
  _validate_delivery_speed s = Ok sp ->
  get_by_id (_warehouse_repo svc) wid = Some wh ->
  get_by_id (_customer_repo svc) cid = Some cu ->
  get_by_id (_product_repo svc) pid = Some pr ->
  calculate P (w_location wh) (c_location cu) = Ok dist ->
  (fltb dist (of_Z 0) = false ->
   exists r, calculate_from_warehouse P svc wid cid pid s = Ok r
             /\ distance_km r = dist /\ r_weight_kg r = weight_kg pr
             /\ speed (delivery_cost r) = speed_value sp)
  /\ (fltb dist (of_Z 0) = true ->
      calculate_from_warehouse P svc wid cid pid s
      = Raise (ValueError ("Distance cannot be negative: " ++ repr_float P dist))).
Proof.
  intros Ef Es Ew Ec Ep Ed. unfold calculate_from_warehouse.
  rewrite Es, Ew, Ec, Ep, Ed, Ef. cbn [bind]. unfold charge_for_distance. split.
  - intros Hd. destruct (get_strategy_returns P regs dist Hd) as [st ->]. cbn [bind].
    eexists. split; [reflexivity|]. cbn [distance_km r_weight_kg delivery_cost].
    split; [reflexivity|]. split; reflexivity.
  - intros Hd. unfold get_strategy. rewrite Hd. reflexivity.
Qed.

Lemma calculate_from_warehouse_returns_witness :
  exists r, calculate_from_warehouse small_angle seed_service 1 1 1 "Standard" = Ok r
            /\ r_weight_kg r = of_Z 5.
Proof.
  assert (E : exists dist,
             calculate small_angle (w_location mumbai_warehouse) (c_location rahul_verma)
             = Ok dist /\ fltb dist (of_Z 0) = false).
  { vm_compute. eexists. split; reflexivity. }
  destruct E as (dist & Ed & Hd).
  destruct (calculate_from_warehouse_returns small_angle seed_service [] 1 1 1 "Standard"
              STANDARD mumbai_warehouse rahul_verma rice_pack dist
              eq_refl eq_refl eq_refl eq_refl eq_refl Ed) as [H _].
  destruct (H Hd) as (r & Hr & _ & Hw & _). exists r. split; [exact Hr|exact Hw].
Defined.
